(** * search.py: the command-line front end of the UI/UX Pro Max search skill

    A shallow embedding of [scripts/search.py]: the text report of
    [format_output], the argument parser the script configures and the
    dispatch of its [__main__] block, followed by the properties of the
    retrieval tool that are stated over them.

    The script imports [core] and [design_system]; what it takes from them
    is gathered in the class [Project].  Python's own builtins and library
    calls are gathered in the class [Python]. *)

From Stdlib Require Import List ZArith NArith String Ascii Bool Lia.
From Stdlib Require Import DecimalString QArith Sorted.
Import ListNotations.
Close Scope Q_scope.
Local Open Scope list_scope.

(** ** Python strings *)

(** A Python [str] is a sequence of Unicode code points; [len] counts code
    points and [s[:n]] keeps the first [n] of them. *)
Definition char := N.
Definition str := list char.

Definition lit (s : string) : str := map N_of_ascii (list_ascii_of_string s).

Definition len (s : str) : Z := Z.of_nat (List.length s).

Definition slice_to (n : nat) (s : str) : str := firstn n s.

Fixpoint str_eqb (a b : str) : bool :=
  match a, b with
  | [], [] => true
  | x :: a', y :: b' => N.eqb x y && str_eqb a' b'
  | _, _ => false
  end.

Fixpoint repeat_str (s : str) (n : nat) : str :=
  match n with
  | O => []
  | S n' => s ++ repeat_str s n'
  end.

(** ["sep".join(parts)] *)
Fixpoint join (sep : str) (parts : list str) : str :=
  match parts with
  | [] => []
  | [p] => p
  | p :: rest => p ++ sep ++ join sep rest
  end.

(** [str(i)] for an integer. *)
Definition str_of_Z (z : Z) : str := lit (NilEmpty.string_of_int (Z.to_int z)).

Definition newline : str := [10%N].

(** ** Python dictionaries with string keys, in insertion order *)

Definition dict (V : Type) := list (str * V).

Fixpoint dict_get {V : Type} (d : dict V) (k : str) : option V :=
  match d with
  | [] => None
  | (k', v) :: d' => if str_eqb k' k then Some v else dict_get d' k
  end.

Definition dict_has {V : Type} (d : dict V) (k : str) : bool :=
  match dict_get d k with Some _ => true | None => false end.

(** ** What the interpreter and its library provide *)

Class Python := {
  pyobj : Type;                                   (* any Python object *)
  py_str : pyobj -> str;                          (* str(o) *)
  py_truthy : pyobj -> bool;                      (* bool(o) *)
  py_rows : pyobj -> option (list (dict pyobj));  (* o seen as a list of dicts *)
  str_upper : str -> str;                         (* s.upper() *)
  py_int : str -> option Z;                       (* int(s), None on ValueError *)
  json_dumps : dict pyobj -> option str;
    (* json.dumps(o, indent=2, ensure_ascii=False); None when it raises for a
       value it cannot serialise *)
  path : Type;                                    (* pathlib.Path *)
  path_resolve : str -> path;                     (* Path(s).resolve() *)
  path_cwd : path;                                (* Path.cwd() *)
  path_join : path -> str -> path;                (* p / s *)
  path_str : path -> str                          (* str(p) *)
}.

(** A row of a knowledge base and the envelope a search returns. *)
Definition row `{Python} := dict pyobj.
Definition result `{Python} := dict pyobj.

(** ** What the script imports from the rest of the project *)

Class Project `{Python} := {
  CSV_CONFIG_keys : list str;                     (* list(CSV_CONFIG.keys()) *)
  AVAILABLE_STACKS : list str;
  search : str -> option str -> Z -> result;
  search_stack : str -> str -> Z -> result;
  generate_design_system :
    str -> option str -> str -> bool -> option str -> option str -> pyobj;
  _slugify_path_segment : str -> str -> str
}.

(** Modelled from the spec: [core.MAX_RESULTS] is imported from [core], which
    is outside the files at hand; the interface description gives the
    result-count limit as "default 3", and the help text of [--max-results]
    in the script reads "Max results (default: 3)". *)
Definition MAX_RESULTS : Z := 3.

(** ** Failures and effects *)

(** What argparse reports before it exits with status 2. *)
Inductive usage_error :=
| Message (text : str)                       (* parser.error(text) in the script *)
| Invalid_choice (option value : str)
| Invalid_int (option value : str)
| Not_allowed_with (option other : str)
| Required (dest : str)
| Unrecognized (extra : list str).

Inductive failure :=
| ParserError (e : usage_error)
| KeyError (key : str)
| TypeError
| Not_serialisable                 (* json.dumps raised TypeError or ValueError *)
| Help_exit.                       (* the help action: exit with status 0 *)

Inductive outcome (A : Type) :=
| Done (a : A)
| Abort (f : failure).
Arguments Done {A} a.
Arguments Abort {A} f.

Definition obind {A B} (m : outcome A) (f : A -> outcome B) : outcome B :=
  match m with
  | Done a => f a
  | Abort e => Abort e
  end.

(** [d[k]] *)
Definition dict_item {V : Type} (d : dict V) (k : str) : outcome V :=
  match dict_get d k with
  | Some v => Done v
  | None => Abort (KeyError k)
  end.

(** ** format_output *)

Section FormatOutput.
Context `{Python}.

(** Lines 70-72: the text shown for one value. *)
Definition value_text (value : pyobj) : str :=
  let value_str := py_str value in
  if (len value_str >? 300)%Z
  then slice_to 300 value_str ++ lit "..."
  else value_str.

(** Line 73. *)
Definition field_line (key : str) (value : pyobj) : str :=
  lit "- **" ++ key ++ lit ":** " ++ value_text value.

(** Lines 68-74, for the row numbered [i]. *)
Definition row_lines (i : Z) (r : row) : list str :=
  (lit "### Result " ++ str_of_Z i)
    :: map (fun kv => field_line (fst kv) (snd kv)) r
    ++ [ [] ].

(** [for i, row in enumerate(rows, start)]. *)
Fixpoint rows_lines (start : Z) (rows : list row) : list str :=
  match rows with
  | [] => []
  | r :: rows' => row_lines start r ++ rows_lines (start + 1) rows'
  end.

(** Lines 59-65. *)
Definition header_lines (result : result) : outcome (list str) :=
  obind
    (if match dict_get result (lit "stack") with
        | Some o => py_truthy o
        | None => false
        end
     then
       obind (dict_item result (lit "stack")) (fun stack =>
       obind (dict_item result (lit "query")) (fun query =>
       Done [ lit "## UI Pro Max Stack Guidelines";
              lit "**Stack:** " ++ py_str stack ++ lit " | **Query:** " ++ py_str query ]))
     else
       obind (dict_item result (lit "domain")) (fun domain =>
       obind (dict_item result (lit "query")) (fun query =>
       Done [ lit "## UI Pro Max Search Results";
              lit "**Domain:** " ++ py_str domain ++ lit " | **Query:** " ++ py_str query ])))
    (fun head =>
       obind (dict_item result (lit "file")) (fun file =>
       obind (dict_item result (lit "count")) (fun count =>
       Done (head ++
             [ lit "**Source:** " ++ py_str file ++ lit " | **Found:** "
                 ++ py_str count ++ lit " results" ++ newline ])))).

(** The list [output] when the function reaches its [return]. *)
Definition format_output_lines (result : result) : outcome (list str) :=
  obind (header_lines result) (fun head =>
  obind (dict_item result (lit "results")) (fun results =>
  match py_rows results with
  | Some rows => Done (head ++ rows_lines 1 rows)
  | None => Abort TypeError
  end)).

Definition format_output (result : result) : outcome str :=
  if dict_has result (lit "error")
  then obind (dict_item result (lit "error")) (fun e => Done (lit "Error: " ++ py_str e))
  else obind (format_output_lines result) (fun output => Done (join newline output)).

End FormatOutput.

(** ** The command line *)

(** [args], the namespace [parser.parse_args()] returns. *)
Record Namespace := {
  query : str;
  domain : option str;
  stack : option str;
  max_results : Z;
  json : bool;
  design_system : bool;
  project_name : option str;
  format : str;
  persist : bool;
  page : option str;
  output_dir : option str
}.

(** The command line after argparse has matched every option string with the
    argument it was declared for (lines 81-94), in the order given.
    [Opt_help] is the [-h/--help] option that [ArgumentParser] adds by
    itself (line 80). *)
Inductive arg :=
| Positional (s : str)
| Opt_domain (v : str)
| Opt_stack (v : str)
| Opt_max_results (v : str)
| Opt_json
| Opt_design_system
| Opt_project_name (v : str)
| Opt_format (v : str)
| Opt_persist
| Opt_page (v : str)
| Opt_output_dir (v : str)
| Opt_help.

(** The defaults of lines 81-94; [query] is filled in once it is known. *)
Definition defaults : Namespace :=
  {| query := []; domain := None; stack := None; max_results := MAX_RESULTS;
     json := false; design_system := false; project_name := None;
     format := lit "ascii"; persist := false; page := None; output_dir := None |}.

Definition set_query (ns : Namespace) (v : str) : Namespace :=
  {| query := v; domain := domain ns; stack := stack ns;
     max_results := max_results ns; json := json ns;
     design_system := design_system ns; project_name := project_name ns;
     format := format ns; persist := persist ns; page := page ns;
     output_dir := output_dir ns |}.

Definition set_domain (ns : Namespace) (v : option str) : Namespace :=
  {| query := query ns; domain := v; stack := stack ns;
     max_results := max_results ns; json := json ns;
     design_system := design_system ns; project_name := project_name ns;
     format := format ns; persist := persist ns; page := page ns;
     output_dir := output_dir ns |}.

Definition set_stack (ns : Namespace) (v : option str) : Namespace :=
  {| query := query ns; domain := domain ns; stack := v;
     max_results := max_results ns; json := json ns;
     design_system := design_system ns; project_name := project_name ns;
     format := format ns; persist := persist ns; page := page ns;
     output_dir := output_dir ns |}.

Definition set_max_results (ns : Namespace) (v : Z) : Namespace :=
  {| query := query ns; domain := domain ns; stack := stack ns;
     max_results := v; json := json ns;
     design_system := design_system ns; project_name := project_name ns;
     format := format ns; persist := persist ns; page := page ns;
     output_dir := output_dir ns |}.

Definition set_json (ns : Namespace) (v : bool) : Namespace :=
  {| query := query ns; domain := domain ns; stack := stack ns;
     max_results := max_results ns; json := v;
     design_system := design_system ns; project_name := project_name ns;
     format := format ns; persist := persist ns; page := page ns;
     output_dir := output_dir ns |}.

Definition set_design_system (ns : Namespace) (v : bool) : Namespace :=
  {| query := query ns; domain := domain ns; stack := stack ns;
     max_results := max_results ns; json := json ns;
     design_system := v; project_name := project_name ns;
     format := format ns; persist := persist ns; page := page ns;
     output_dir := output_dir ns |}.

Definition set_project_name (ns : Namespace) (v : option str) : Namespace :=
  {| query := query ns; domain := domain ns; stack := stack ns;
     max_results := max_results ns; json := json ns;
     design_system := design_system ns; project_name := v;
     format := format ns; persist := persist ns; page := page ns;
     output_dir := output_dir ns |}.

Definition set_format (ns : Namespace) (v : str) : Namespace :=
  {| query := query ns; domain := domain ns; stack := stack ns;
     max_results := max_results ns; json := json ns;
     design_system := design_system ns; project_name := project_name ns;
     format := v; persist := persist ns; page := page ns;
     output_dir := output_dir ns |}.

Definition set_persist (ns : Namespace) (v : bool) : Namespace :=
  {| query := query ns; domain := domain ns; stack := stack ns;
     max_results := max_results ns; json := json ns;
     design_system := design_system ns; project_name := project_name ns;
     format := format ns; persist := v; page := page ns;
     output_dir := output_dir ns |}.

Definition set_page (ns : Namespace) (v : option str) : Namespace :=
  {| query := query ns; domain := domain ns; stack := stack ns;
     max_results := max_results ns; json := json ns;
     design_system := design_system ns; project_name := project_name ns;
     format := format ns; persist := persist ns; page := v;
     output_dir := output_dir ns |}.

Definition set_output_dir (ns : Namespace) (v : option str) : Namespace :=
  {| query := query ns; domain := domain ns; stack := stack ns;
     max_results := max_results ns; json := json ns;
     design_system := design_system ns; project_name := project_name ns;
     format := format ns; persist := persist ns; page := page ns;
     output_dir := v |}.

(** Truth value of an attribute that is [None] or a string. *)
Definition truthy (o : option str) : bool :=
  match o with
  | Some (_ :: _) => true
  | _ => false
  end.

Definition is_some {A} (o : option A) : bool :=
  match o with Some _ => true | None => false end.

Definition member (v : str) (choices : list str) : bool := existsb (str_eqb v) choices.

Definition parser_error {A} (e : usage_error) : outcome A := Abort (ParserError e).

(** ** Effects of a run *)

(** Calls into the project and what is written to standard output, in order:
    the lines the script prints and, for [Print_help], the help text of the
    parser.
    A retrieval happens inside [search], [search_stack] and
    [generate_design_system]; files are written inside
    [generate_design_system] only. *)
Inductive event :=
| Call_search (q : str) (d : option str) (n : Z)
| Call_search_stack (q s : str) (n : Z)
| Call_generate_design_system
    (q : str) (name : option str) (fmt : str) (persisting : bool)
    (pg out : option str)
| Print (text : str)
| Print_help.

(** A computation: what it did so far and how it ended. *)
Definition M (A : Type) : Type := list event * outcome A.

Definition ret {A} (a : A) : M A := ([], Done a).

Definition bind {A B} (m : M A) (f : A -> M B) : M B :=
  match m with
  | (t, Done a) => let (t', r) := f a in (t ++ t', r)
  | (t, Abort e) => (t, Abort e)
  end.

Definition emit (e : event) : M unit := ([e], Done tt).

Definition lift {A} (o : outcome A) : M A := ([], o).

Definition print (s : str) : M unit := emit (Print s).

Declare Scope run_scope.
Delimit Scope run_scope with run.
Notation "x <- m ;; k" := (bind m (fun x => k))
  (at level 61, m at next level, right associativity) : run_scope.
Notation "m ;; k" := (bind m (fun _ => k))
  (at level 61, right associativity) : run_scope.

Definition trace {A} (m : M A) : list event := fst m.
Definition ending {A} (m : M A) : outcome A := snd m.

(** The result-count limit an event hands to a search, when it is one. *)
Definition limit_of (e : event) : option Z :=
  match e with
  | Call_search _ _ n => Some n
  | Call_search_stack _ _ n => Some n
  | _ => None
  end.

Definition is_print (e : event) : bool :=
  match e with
  | Print _ => true
  | _ => false
  end.



Section Script.
Context `{Project}.

(** *** parser.parse_args() *)

(** One optional argument taken: conversion, then [choices], then the
    mutually exclusive group of lines 82-84, then the store.  The help action
    ends the parse where it stands. *)
Definition take_action (ns : Namespace) (a : arg) : outcome Namespace :=
  match a with
  | Positional _ => Done ns
  | Opt_domain v =>
      if negb (member v CSV_CONFIG_keys)
      then parser_error (Invalid_choice (lit "--domain/-d") v)
      else if is_some (stack ns)
      then parser_error (Not_allowed_with (lit "--domain/-d") (lit "--stack/-s"))
      else Done (set_domain ns (Some v))
  | Opt_stack v =>
      if negb (member v AVAILABLE_STACKS)
      then parser_error (Invalid_choice (lit "--stack/-s") v)
      else if is_some (domain ns)
      then parser_error (Not_allowed_with (lit "--stack/-s") (lit "--domain/-d"))
      else Done (set_stack ns (Some v))
  | Opt_max_results v =>
      match py_int v with
      | Some n => Done (set_max_results ns n)
      | None => parser_error (Invalid_int (lit "--max-results/-n") v)
      end
  | Opt_json => Done (set_json ns true)
  | Opt_design_system => Done (set_design_system ns true)
  | Opt_project_name v => Done (set_project_name ns (Some v))
  | Opt_format v =>
      if negb (member v [lit "ascii"; lit "markdown"])
      then parser_error (Invalid_choice (lit "--format/-f") v)
      else Done (set_format ns v)
  | Opt_persist => Done (set_persist ns true)
  | Opt_page v => Done (set_page ns (Some v))
  | Opt_output_dir v => Done (set_output_dir ns (Some v))
  | Opt_help => Abort Help_exit
  end.

(** The arguments are consumed from left to right; positional strings are
    set aside. *)
Definition set_aside (a : arg) (positional : list str) : list str :=
  match a with
  | Positional s => positional ++ [s]
  | _ => positional
  end.

Fixpoint consume (ns : Namespace) (positional : list str) (argv : list arg)
  : outcome (Namespace * list str) :=
  match argv with
  | [] => Done (ns, positional)
  | a :: rest =>
      obind (take_action ns a) (fun ns' => consume ns' (set_aside a positional) rest)
  end.

Definition parse_args (argv : list arg) : outcome Namespace :=
  obind (consume defaults [] argv) (fun st =>
  match snd st with
  | [] => parser_error (Required (lit "query"))
  | [q] => Done (set_query (fst st) q)
  | _ :: extra => parser_error (Unrecognized extra)
  end).

(** *** Lines 98-150 *)

Definition when (c : bool) (m : M unit) : M unit := if c then m else ret tt.

(** Line 121. *)
Definition project_name_of (args : Namespace) : str :=
  if truthy (project_name args)
  then match project_name args with Some p => p | None => [] end
  else str_upper (query args).

(** Line 122. *)
Definition project_slug (args : Namespace) : str :=
  _slugify_path_segment (project_name_of args) (lit "default").

(** Line 123. *)
Definition base_output_dir (args : Namespace) : path :=
  if truthy (output_dir args)
  then match output_dir args with Some o => path_resolve o | None => path_cwd end
  else path_cwd.

(** Line 124. *)
Definition design_system_dir (args : Namespace) : path :=
  path_join (path_join (base_output_dir args) (lit "design-system")) (project_slug args).

(** The lines of 126, 127, 130 and 132, for a directory [d]. *)
Definition persisted_line (d : path) : str :=
  [9989%N] ++ lit " Design system persisted to " ++ path_str d ++ lit "/".

Definition master_line (d : path) : str :=
  lit "   " ++ [128196%N] ++ lit " " ++ path_str (path_join d (lit "MASTER.md"))
    ++ lit " (Global Source of Truth)".

Definition page_line (d : path) (page_filename : str) : str :=
  lit "   " ++ [128196%N] ++ lit " "
    ++ path_str (path_join (path_join d (lit "pages")) (page_filename ++ lit ".md"))
    ++ lit " (Page Overrides)".

Definition usage_line (d : path) : str :=
  [128214%N] ++ lit " Usage: When building a page, check "
    ++ path_str (path_join (path_join d (lit "pages")) (lit "[page].md"))
    ++ lit " first.".

(** Lines 125-134. *)
Definition print_confirmation (args : Namespace) : M unit :=
  (print (newline ++ repeat_str (lit "=") 60) ;;
   print (persisted_line (design_system_dir args)) ;;
   print (master_line (design_system_dir args)) ;;
   when (truthy (page args))
     (print (page_line (design_system_dir args)
               (_slugify_path_segment
                  (match page args with Some p => p | None => [] end) (lit "page")))) ;;
   print [] ;;
   print (usage_line (design_system_dir args)) ;;
   print (lit "   If exists, its rules override MASTER.md. Otherwise, use MASTER.md.") ;;
   print (repeat_str (lit "=") 60))%run.

(** Lines 138-142 and 146-150. *)
Definition show (as_json : bool) (r : result) : M unit :=
  (if as_json
   then text <- lift (match json_dumps r with
                      | Some text => Done text
                      | None => Abort Not_serialisable
                      end) ;;
        print text
   else text <- lift (format_output r) ;; print text)%run.

(** A call into the project is recorded as an event when it is made; its
    value is what the project function returns. *)
Definition run (args : Namespace) : M unit :=
  (when (truthy (page args) && negb (persist args))
     (lift (parser_error (Message (lit "--page requires --persist")))) ;;
   when ((persist args || truthy (page args) || truthy (output_dir args))
           && negb (design_system args))
     (lift (parser_error (Message
        (lit "--persist/--page/--output-dir can only be used with --design-system")))) ;;
   when (design_system args && json args)
     (lift (parser_error (Message (lit "--json is not supported with --design-system")))) ;;
   if design_system args then
     emit (Call_generate_design_system (query args) (project_name args) (format args)
             (persist args) (page args) (output_dir args)) ;;
     print (py_str (generate_design_system (query args) (project_name args)
                      (format args) (persist args) (page args) (output_dir args))) ;;
     when (persist args) (print_confirmation args)
   else if truthy (stack args) then
     emit (Call_search_stack (query args)
             (match stack args with Some s => s | None => [] end) (max_results args)) ;;
     show (json args)
       (search_stack (query args)
          (match stack args with Some s => s | None => [] end) (max_results args))
   else
     emit (Call_search (query args) (domain args) (max_results args)) ;;
     show (json args) (search (query args) (domain args) (max_results args)))%run.

(** Line 96 as the script sees it: the help action writes the help text to
    standard output before it exits; an argument error writes to standard
    error only. *)
Definition parsed (o : outcome Namespace) : M Namespace :=
  match o with
  | Abort Help_exit => ([Print_help], Abort Help_exit)
  | _ => ([], o)
  end.

(** The script run on a command line. *)
Definition main (argv : list arg) : M unit :=
  (args <- parsed (parse_args argv) ;; run args)%run.

(** A run that only printed the help text and exited with status 0. *)
Definition helped (argv : list arg) : Prop :=
  main argv = ([Print_help], Abort Help_exit).


(** A rejected command line: the run ends in a usage error, and nothing
    was called or printed before it. *)
Definition rejected (argv : list arg) : Prop :=
  exists e, main argv = ([], Abort (ParserError e)).

(** A run the parser stopped before anything was called: a usage error, or
    the help text of a command line that carries [-h]. *)
Definition stopped (argv : list arg) : Prop :=
  rejected argv \/ (In Opt_help argv /\ helped argv).

End Script.

(** ** design_system._slugify_path_segment *)

(** The script imports [_slugify_path_segment] from [design_system], which is
    outside the files at hand.  The persistence manager is described as:
    [slugify(name, fallback)] "lowercases, replaces whitespace/punctuation
    runs with a single separator, strips leading/trailing separators, strips
    or rejects path-traversal sequences and path separators embedded in the
    name, and substitutes [fallback] when the result would be empty". *)

Definition separator : char := 45%N.

Definition lower_char (c : char) : char :=
  if (65 <=? c)%N && (c <=? 90)%N then (c + 32)%N else c.

(** Modelled from the spec: the step "lowercases" of the missing
    [_slugify_path_segment], on the ASCII letters. *)
Definition lowercase (s : str) : str := map lower_char s.

(** A lower-case ASCII letter or a digit.  Every other code point counts as
    whitespace or punctuation, the dot and both slashes among them, so a
    path-traversal sequence is replaced like any other run. *)
Definition is_word_char (c : char) : bool :=
  ((97 <=? c)%N && (c <=? 122)%N) || ((48 <=? c)%N && (c <=? 57)%N).

(** Modelled from the spec: the step "replaces whitespace/punctuation runs
    with a single separator" of the missing [_slugify_path_segment]; the
    separator is written when the last character of a run is reached. *)
Fixpoint replace_runs (s : str) : str :=
  match s with
  | [] => []
  | c :: s' =>
      if is_word_char c then c :: replace_runs s'
      else match s' with
           | [] => [separator]
           | d :: _ => if is_word_char d then separator :: replace_runs s'
                       else replace_runs s'
           end
  end.

Fixpoint lstrip (s : str) : str :=
  match s with
  | [] => []
  | c :: s' => if N.eqb c separator then lstrip s' else s
  end.

Fixpoint rstrip (s : str) : str :=
  match s with
  | [] => []
  | c :: s' =>
      match rstrip s' with
      | [] => if N.eqb c separator then [] else [c]
      | r => c :: r
      end
  end.

(** Modelled from the spec: the step "strips leading/trailing separators" of
    the missing [_slugify_path_segment]. *)
Definition strip (s : str) : str := rstrip (lstrip s).

(** The shape [replace_runs] leaves: word characters and separators, and a
    separator is never followed by another one. *)
Fixpoint separated (s : str) : bool :=
  match s with
  | [] => true
  | c :: s' =>
      (is_word_char c
       || (N.eqb c separator
           && match s' with [] => true | d :: _ => is_word_char d end))
      && separated s'
  end.

(** Modelled from the spec: the three steps of the missing
    [_slugify_path_segment] in the order the description gives them. *)
Definition normalise (name : str) : str := strip (replace_runs (lowercase name)).

(** Modelled from the spec: [_slugify_path_segment(name, fallback)], defined
    in [design_system] and missing here; it "substitutes [fallback] when the
    result would be empty". *)
Definition slugify (name fallback : str) : str :=
  match normalise name with
  | [] => fallback
  | slug => slug
  end.

(** ** The lexical ranker *)

(** A ranked result: the row, where it stands in the corpus, and its score. *)
Record ranked := {
  row_index : nat;
  record : dict str;
  relevance : Q
}.

(** [a] comes before [b] in a ranking: a higher score, or the same score
    and an earlier row. *)
Definition before (a b : ranked) : Prop :=
  (relevance b < relevance a)%Q
  \/ ((relevance a == relevance b)%Q /\ (row_index a < row_index b)%nat).

Definition earlier (a b : ranked) : Prop := (row_index a < row_index b)%nat.

Section Ranker.

(** The ranker belongs to [core], which is outside the files at hand.  Its
    description scores every row with a BM25-style function of the query,
    the row and the whole row set, built from logarithms and quotients of
    floating-point numbers with constants that are left open; that function
    is the parameter [bm25], and a finite score is read as the rational it
    denotes. *)
Variable bm25 : str -> list (dict str) -> dict str -> Q.

(** Modelled from the spec: the scoring pass of the missing [rank]; every
    row keeps its position in the corpus. *)
Fixpoint score_rows (query : str) (corpus : list (dict str)) (i : nat)
         (rows : list (dict str)) : list ranked :=
  match rows with
  | [] => []
  | r :: rows' =>
      {| row_index := i; record := r; relevance := bm25 query corpus r |}
        :: score_rows query corpus (S i) rows'
  end.

(** Modelled from the spec: one step of the "stable sort" of the missing
    [rank].  [x] stood before every element of [l] in the corpus: it is
    placed before the first element that does not score higher. *)
Fixpoint insert_by_score (x : ranked) (l : list ranked) : list ranked :=
  match l with
  | [] => [x]
  | y :: l' =>
      if Qle_bool (relevance y) (relevance x)
      then x :: l
      else y :: insert_by_score x l'
  end.

(** Modelled from the spec: the "stable sort" of the missing [rank], by
    descending score. *)
Fixpoint sort_by_score (l : list ranked) : list ranked :=
  match l with
  | [] => []
  | x :: l' => insert_by_score x (sort_by_score l')
  end.

(** Modelled from the spec: [rank(query, rows, limit)] of [core], missing
    here: "rows scoring zero are excluded", "ties in score are broken by
    original row order (stable sort)", the result has at most [limit]
    entries and "[limit] <= 0 yields an empty result". *)
Definition rank (query : str) (rows : list (dict str)) (limit : Z) : list ranked :=
  firstn (Z.to_nat limit)
    (sort_by_score
       (filter (fun r => negb (Qeq_bool (relevance r) 0))
               (score_rows query rows 0 rows))).

End Ranker.

(** ** A small installation *)

(** Objects, builtins and project functions simple enough to run the script
    on concrete command lines.  The builtins are those of Python on ASCII
    and Latin-1 text; the objects are strings and lists of rows. *)
Inductive sample_obj :=
| Text (s : str)
| Table (rows : list (dict str)).

(** [upper] on ASCII and Latin-1 text: the sharp s becomes "SS", the micro
    sign and the y with diaeresis leave Latin-1. *)
Definition upper_chars (c : char) : str :=
  if (97 <=? c)%N && (c <=? 122)%N then [(c - 32)%N]
  else if (c =? 223)%N then [83%N; 83%N]
  else if (c =? 181)%N then [924%N]
  else if (c =? 255)%N then [376%N]
  else if (224 <=? c)%N && (c <=? 254)%N && negb (c =? 247)%N then [(c - 32)%N]
  else [c].

Definition is_space (c : char) : bool :=
  (c =? 32)%N || ((9 <=? c)%N && (c <=? 13)%N).

Definition is_digit (c : char) : bool := (48 <=? c)%N && (c <=? 57)%N.

(** Decimal digits, single underscores allowed between them. *)
Fixpoint grouped_digits (acc : Z) (after_digit : bool) (s : str) : option Z :=
  match s with
  | [] => if after_digit then Some acc else None
  | c :: s' =>
      if is_digit c then grouped_digits (10 * acc + Z.of_N (c - 48)) true s'
      else if (c =? 95)%N && after_digit then grouped_digits acc false s'
      else None
  end.

Fixpoint drop_spaces (s : str) : str :=
  match s with
  | c :: s' => if is_space c then drop_spaces s' else s
  | [] => []
  end.

(** [int] on an ASCII literal: spaces around it, an optional sign, decimal
    digits with single underscores between them. *)
Definition signed_value (s : str) : option Z :=
  match rev (drop_spaces (rev (drop_spaces s))) with
  | 45%N :: digits => option_map Z.opp (grouped_digits 0 false digits)
  | 43%N :: digits => grouped_digits 0 false digits
  | digits => grouped_digits 0 false digits
  end.

#[export] Instance sample_python : Python := {|
  pyobj := sample_obj;
  py_str := fun o => match o with Text s => s | Table _ => lit "[...]" end;
  py_truthy := fun o =>
    match o with Text (_ :: _) => true | Table (_ :: _) => true | _ => false end;
  py_rows := fun o =>
    match o with
    | Table rows => Some (map (map (fun kv => (fst kv, Text (snd kv)))) rows)
    | Text [] => Some []
    | Text _ => None
    end;
  str_upper := flat_map upper_chars;
  py_int := signed_value;
  json_dumps := fun _ => Some (lit "{...}");
  path := list str;
  path_resolve := fun s => [lit "/abs"; s];
  path_cwd := [lit "/work"];
  path_join := fun p s => p ++ [s];
  path_str := join (lit "/")
|}.

Definition sample_rows : list (dict str) :=
  [ [ (lit "Name", lit "Glass"); (lit "Notes", repeat_str (lit "x") 301) ];
    [ (lit "Name", lit "Flat"); (lit "Notes", lit "plain") ] ].

Definition sample_envelope (kind value q : str) : dict sample_obj :=
  [ (kind, Text value); (lit "query", Text q); (lit "file", Text (lit "styles.csv"));
    (lit "count", Text (lit "2")); (lit "results", Table sample_rows) ].

#[export] Instance sample_project : Project := {|
  CSV_CONFIG_keys := map lit ["style"; "color"; "chart"; "landing"; "product"; "ux";
                              "typography"; "icons"; "react"; "web"]%string;
  AVAILABLE_STACKS := map lit ["html-tailwind"; "react"; "nextjs"]%string;
  search := fun q d _ =>
    sample_envelope (lit "domain") (match d with Some v => v | None => lit "style" end) q;
  search_stack := fun q s _ => sample_envelope (lit "stack") s q;
  generate_design_system := fun q _ _ _ _ _ => Text (lit "DESIGN SYSTEM: " ++ q);
  _slugify_path_segment := slugify
|}.

(** Three rows of which the second holds the query twice and the others
    once. *)
Definition sample_corpus : list (dict str) :=
  [ [ (lit "Name", lit "Glass"); (lit "Notes", lit "plain") ];
    [ (lit "Name", lit "plain"); (lit "Notes", lit "plain") ];
    [ (lit "Name", lit "Flat"); (lit "Notes", lit "plain") ] ].

(** A score for trying the ranker: the number of fields of a row whose text
    is the query. *)
Definition sample_score (q : str) (_ : list (dict str)) (r : dict str) : Q :=
  inject_Z (Z.of_nat (List.length (filter (fun kv => str_eqb (snd kv) q) r))).

(** ** _ensure_utf8_stream *)

(** A text stream as lines 24-45 see it: through [getattr] with the default
    [None], a call of its [reconfigure] and the constructor of
    [io.TextIOWrapper].  The [encoding] attribute is a string or [None];
    [reconfigure] changes the stream in place, and the stream after the call
    is what is returned. *)
Class Streams := {
  stream : Type;
  byte_buffer : Type;
  str_lower : str -> str;                       (* s.lower() *)
  stream_encoding : stream -> option str;       (* getattr(stream, "encoding", None) *)
  stream_reconfigure : stream -> option (option stream);
    (* None: no callable reconfigure attribute; Some None: the call
       reconfigure(encoding="utf-8") raises; Some (Some s'): the stream after it *)
  stream_buffer : stream -> option byte_buffer; (* getattr(stream, "buffer", None) *)
  TextIOWrapper : byte_buffer -> str -> stream  (* io.TextIOWrapper(buffer, encoding=e) *)
}.

(** Line 27: [not encoding or encoding.lower() == "utf-8"]. *)
Definition utf8_or_unset `{Streams} (encoding : option str) : bool :=
  match encoding with
  | None => true
  | Some [] => true
  | Some e => str_eqb (str_lower e) (lit "utf-8")
  end.

(** Lines 24-45. *)
Definition _ensure_utf8_stream `{Streams} (s : stream) : stream :=
  if utf8_or_unset (stream_encoding s) then s
  else
    match stream_reconfigure s with
    | Some (Some s') => s'
    | _ =>
        match stream_buffer s with
        | Some b => TextIOWrapper b (lit "utf-8")
        | None => s
        end
    end.

(** What [io] promises of a stream: "utf-8" is its own lower case, a wrapper
    made for "utf-8" reports that encoding, and a stream that was
    reconfigured reports no other encoding. *)
Definition io_laws `{Streams} : Prop :=
  str_lower (lit "utf-8") = lit "utf-8"
  /\ (forall b, stream_encoding (TextIOWrapper b (lit "utf-8")) = Some (lit "utf-8"))
  /\ (forall s s', stream_reconfigure s = Some (Some s') ->
                   utf8_or_unset (stream_encoding s') = true).


(** The positional strings of a command line, in order. *)
Definition positionals (argv : list arg) : list str :=
  flat_map (fun a => match a with Positional s => [s] | _ => [] end) argv.

(** Streams for trying [_ensure_utf8_stream]: an encoding, whether
    [reconfigure] is there and works, and a buffer. *)
Record sample_stream := {
  its_encoding : option str;
  its_reconfigure : option bool;
  its_buffer : option nat
}.

#[export] Instance sample_streams : Streams := {|
  stream := sample_stream;
  byte_buffer := nat;
  str_lower := map lower_char;
  stream_encoding := its_encoding;
  stream_reconfigure := fun s =>
    match its_reconfigure s with
    | None => None
    | Some false => Some None
    | Some true =>
        Some (Some {| its_encoding := Some (lit "utf-8");
                      its_reconfigure := Some true;
                      its_buffer := its_buffer s |})
    end;
  stream_buffer := its_buffer;
  TextIOWrapper := fun b e =>
    {| its_encoding := Some e; its_reconfigure := Some true; its_buffer := Some b |}
|}.

(** A project whose searches find no file: the envelope has an ["error"]
    key only. *)
Definition failing_project : Project := {|
  CSV_CONFIG_keys := map lit ["style"; "color"]%string;
  AVAILABLE_STACKS := map lit ["react"]%string;
  search := fun _ _ _ => [ (lit "error", Text (lit "File not found")) ];
  search_stack := fun _ _ _ => [ (lit "error", Text (lit "File not found")) ];
  generate_design_system := fun q _ _ _ _ _ => Text q;
  _slugify_path_segment := slugify
|}.

(** A console stream in a legacy encoding whose [reconfigure] fails. *)
Definition legacy_console : sample_stream :=
  {| its_encoding := Some (lit "cp1252"); its_reconfigure := Some false;
     its_buffer := Some 1%nat |}.

(** * Properties *)

(** ** The text report *)

Section FormatOutputFacts.
Context `{Python}.








Lemma obind_done {A B} (m : outcome A) (f : A -> outcome B) (b : B) :
  obind m f = Done b -> exists a, m = Done a /\ f a = Done b.
Proof. destruct m as [a | e]; cbn; intros Hm; [now exists a | discriminate]. Qed.

Lemma dict_item_done {V} (d : dict V) (k : str) (v : V) :
  dict_item d k = Done v -> dict_get d k = Some v.
Proof. unfold dict_item. destruct (dict_get d k); intros Hd; now inversion Hd. Qed.

Lemma format_output_lines_done (r : result) (lines : list str) :
  format_output_lines r = Done lines ->
  exists head results rows,
    header_lines r = Done head /\
    dict_get r (lit "results") = Some results /\
    py_rows results = Some rows /\
    lines = head ++ rows_lines 1 rows.
Proof.
  unfold format_output_lines. intros Hl.
  apply obind_done in Hl as (head & Hhead & Hl).
  apply obind_done in Hl as (results & Hres & Hl).
  destruct (py_rows results) as [rows |] eqn:Hrows; [| discriminate].
  inversion Hl; subst. exists head, results, rows.
  repeat split; auto using dict_item_done.
Qed.


End FormatOutputFacts.

(** ** The argument parser *)

Section ParserFacts.
Context `{Project}.

(** Splits a successful or failed [take_action] into the cases of its
    tests. *)
Ltac action_cases a Ha :=
  destruct a; unfold take_action, parser_error in Ha;
  repeat match type of Ha with
         | context [if ?c then _ else _] => destruct c eqn:?
         | context [match py_int ?v with _ => _ end] => destruct (py_int v) eqn:?
         end;
  try discriminate Ha; inversion Ha; subst; clear Ha.

Lemma take_action_abort (ns : Namespace) (a : arg) (f : failure) :
  take_action ns a = Abort f ->
  (exists e, f = ParserError e) \/ (f = Help_exit /\ a = Opt_help).
Proof. intros Ha. action_cases a Ha; eauto. Qed.

Lemma consume_abort (argv : list arg) :
  forall ns positional f,
    consume ns positional argv = Abort f ->
    (exists e, f = ParserError e) \/ (f = Help_exit /\ In Opt_help argv).
Proof.
  induction argv as [| a argv IH]; intros ns positional f Hc; [discriminate |].
  cbn [consume] in Hc. destruct (take_action ns a) as [ns' | f'] eqn:Ha; cbn [obind] in Hc.
  - destruct (IH _ _ _ Hc) as [He | [Hf Hin]]; [now left | right].
    split; [exact Hf | now right].
  - inversion Hc; subst.
    destruct (take_action_abort _ _ _ Ha) as [He | [Hf ->]]; [now left | right].
    split; [exact Hf | now left].
Qed.

Lemma parse_args_abort (argv : list arg) (f : failure) :
  parse_args argv = Abort f ->
  (exists e, f = ParserError e) \/ (f = Help_exit /\ In Opt_help argv).
Proof.
  unfold parse_args. destruct (consume defaults [] argv) as [[ns positional] | f'] eqn:Hc.
  - cbn. destruct positional as [| q [| q' extra]]; unfold parser_error; intros Hp;
      inversion Hp; eauto.
  - cbn. intros Hp. inversion Hp; subst. eauto using consume_abort.
Qed.

(** A successful parse is a successful pass over the arguments that found
    exactly one positional string. *)
Lemma parse_args_done (argv : list arg) (args : Namespace) :
  parse_args argv = Done args ->
  exists ns q, consume defaults [] argv = Done (ns, [q]) /\ args = set_query ns q.
Proof.
  unfold parse_args. destruct (consume defaults [] argv) as [[ns positional] | f'];
    cbn; [| discriminate].
  destruct positional as [| q [| q' extra]]; unfold parser_error; intros Hp;
    inversion Hp. now exists ns, q.
Qed.

(** A property of the namespace that every argument satisfying [Q] keeps
    holds after the pass when it held before. *)
Lemma consume_keeps (P : Namespace -> Prop) (Q : arg -> Prop) :
  (forall ns a ns', Q a -> P ns -> take_action ns a = Done ns' -> P ns') ->
  forall argv ns positional ns' positional',
    Forall Q argv -> P ns ->
    consume ns positional argv = Done (ns', positional') -> P ns'.
Proof.
  intros Hkeep. induction argv as [| a argv IH]; intros ns positional ns' positional' HQ HP Hc.
  - cbn in Hc. now inversion Hc; subst.
  - inversion HQ as [| ? ? Ha HQ']; subst. cbn [consume] in Hc.
    destruct (take_action ns a) as [ns1 | f] eqn:Hact; cbn [obind] in Hc; [| discriminate].
    eauto.
Qed.

(** A property that the argument [a0] brings about and that every argument
    satisfying [Q] keeps holds after a pass over a command line with [a0]. *)
Lemma consume_reaches (P : Namespace -> Prop) (Q : arg -> Prop) (a0 : arg) :
  (forall ns ns', take_action ns a0 = Done ns' -> P ns') ->
  (forall ns a ns', Q a -> P ns -> take_action ns a = Done ns' -> P ns') ->
  forall argv ns positional ns' positional',
    Forall Q argv -> In a0 argv ->
    consume ns positional argv = Done (ns', positional') -> P ns'.
Proof.
  intros Hset Hkeep. induction argv as [| a argv IH];
    intros ns positional ns' positional' HQ Hin Hc; [destruct Hin |].
  inversion HQ as [| ? ? Ha HQ']; subst. cbn [consume] in Hc.
  destruct (take_action ns a) as [ns1 | f] eqn:Hact; cbn [obind] in Hc; [| discriminate].
  destruct Hin as [-> | Hin].
  - eapply consume_keeps; eauto.
  - eapply IH; eauto.
Qed.

Lemma all_args (argv : list arg) : Forall (fun _ => True) argv.
Proof. now apply Forall_forall. Qed.

(** **** What the flags leave in the namespace *)

Lemma parsed_persist (argv : list arg) (args : Namespace) :
  parse_args argv = Done args ->
  ~ In Opt_persist argv -> persist args = false.
Proof.
  intros Hp Hno. apply parse_args_done in Hp as (ns & q & Hc & ->). cbn.
  eapply (consume_keeps (fun ns => persist ns = false) (fun a => a <> Opt_persist));
    [ | | | exact Hc ]; [| | reflexivity].
  - intros ns0 a ns1 Ha HP Hact. action_cases a Hact; cbn; auto. congruence.
  - apply Forall_forall. intros a Hin ->. contradiction.
Qed.

Lemma parsed_design_system (argv : list arg) (args : Namespace) :
  parse_args argv = Done args ->
  ~ In Opt_design_system argv -> design_system args = false.
Proof.
  intros Hp Hno. apply parse_args_done in Hp as (ns & q & Hc & ->). cbn.
  eapply (consume_keeps (fun ns => design_system ns = false) (fun a => a <> Opt_design_system));
    [ | | | exact Hc ]; [| | reflexivity].
  - intros ns0 a ns1 Ha HP Hact. action_cases a Hact; cbn; auto. congruence.
  - apply Forall_forall. intros a Hin ->. contradiction.
Qed.


Lemma parsed_flag_design_system (argv : list arg) (args : Namespace) :
  parse_args argv = Done args -> In Opt_design_system argv -> design_system args = true.
Proof.
  intros Hp Hin. apply parse_args_done in Hp as (ns & q & Hc & ->). cbn.
  eapply (consume_reaches (fun ns => design_system ns = true) (fun _ => True) Opt_design_system);
    [ | | | | exact Hc ]; auto using all_args.
  - intros ns0 ns1 Hact. cbn in Hact. now inversion Hact.
  - intros ns0 a ns1 _ HP Hact. action_cases a Hact; cbn; auto.
Qed.


Lemma parsed_json (argv : list arg) (args : Namespace) :
  parse_args argv = Done args -> ~ In Opt_json argv -> json args = false.
Proof.
  intros Hp Hno. apply parse_args_done in Hp as (ns & q & Hc & ->). cbn.
  eapply (consume_keeps (fun ns => json ns = false) (fun a => a <> Opt_json));
    [ | | | exact Hc ]; [| | reflexivity].
  - intros ns0 a ns1 Ha HP Hact. action_cases a Hact; cbn; auto. congruence.
  - apply Forall_forall. intros a Hin ->. contradiction.
Qed.

(** The query of a parsed command line is its positional string. *)
Lemma consume_positional (argv : list arg) :
  forall ns positional ns' positional' s,
    consume ns positional argv = Done (ns', positional') ->
    In s positional' -> In s positional \/ In (Positional s) argv.
Proof.
  induction argv as [| a argv IH]; intros ns positional ns' positional' s Hc Hs.
  - cbn in Hc. inversion Hc; subst. now left.
  - cbn [consume] in Hc.
    destruct (take_action ns a) as [ns1 | f]; cbn [obind] in Hc; [| discriminate].
    destruct (IH _ _ _ _ _ Hc Hs) as [Hin | Hin]; [| right; now right].
    destruct a; cbn in Hin; auto.
    apply in_app_or in Hin as [Hin | [<- | []]]; [now left | right; now left].
Qed.

Lemma parsed_query (argv : list arg) (args : Namespace) :
  parse_args argv = Done args -> In (Positional (query args)) argv.
Proof.
  intros Hp. apply parse_args_done in Hp as (ns & q & Hc & ->). cbn.
  destruct (consume_positional argv _ _ _ _ q Hc (or_introl eq_refl)) as [[] | Hin].
  exact Hin.
Qed.


Lemma parsed_page_falsy (argv : list arg) (args : Namespace) :
  parse_args argv = Done args ->
  (forall w, In (Opt_page w) argv -> w = []) -> truthy (page args) = false.
Proof.
  intros Hp Hno. apply parse_args_done in Hp as (ns & q & Hc & ->). cbn.
  eapply (consume_keeps (fun ns => truthy (page ns) = false) (fun a => forall w, a = Opt_page w -> w = []));
    [ | | | exact Hc ]; [| | reflexivity].
  - intros ns0 a ns1 Ha HP Hact. action_cases a Hact; cbn; auto. now rewrite (Ha v eq_refl).
  - apply Forall_forall. intros a Ha w ->. auto.
Qed.

Lemma parsed_output_dir_falsy (argv : list arg) (args : Namespace) :
  parse_args argv = Done args ->
  (forall w, In (Opt_output_dir w) argv -> w = []) -> truthy (output_dir args) = false.
Proof.
  intros Hp Hno. apply parse_args_done in Hp as (ns & q & Hc & ->). cbn.
  eapply (consume_keeps (fun ns => truthy (output_dir ns) = false) (fun a => forall w, a = Opt_output_dir w -> w = []));
    [ | | | exact Hc ]; [| | reflexivity].
  - intros ns0 a ns1 Ha HP Hact. action_cases a Hact; cbn; auto. now rewrite (Ha v eq_refl).
  - apply Forall_forall. intros a Ha w ->. auto.
Qed.



Lemma parsed_domain_none (argv : list arg) (args : Namespace) :
  parse_args argv = Done args ->
  (forall w, ~ In (Opt_domain w) argv) -> domain args = None.
Proof.
  intros Hp Hno. apply parse_args_done in Hp as (ns & q & Hc & ->). cbn.
  eapply (consume_keeps (fun ns => domain ns = None) (fun a => forall w, a <> Opt_domain w));
    [ | | | exact Hc ]; [| | reflexivity].
  - intros ns0 a ns1 Ha HP Hact. action_cases a Hact; cbn; auto. now elim (Ha v).
  - apply Forall_forall. intros a Ha w ->. now apply (Hno w).
Qed.

Lemma parsed_stack_none (argv : list arg) (args : Namespace) :
  parse_args argv = Done args ->
  (forall w, ~ In (Opt_stack w) argv) -> stack args = None.
Proof.
  intros Hp Hno. apply parse_args_done in Hp as (ns & q & Hc & ->). cbn.
  eapply (consume_keeps (fun ns => stack ns = None) (fun a => forall w, a <> Opt_stack w));
    [ | | | exact Hc ]; [| | reflexivity].
  - intros ns0 a ns1 Ha HP Hact. action_cases a Hact; cbn; auto. now elim (Ha v).
  - apply Forall_forall. intros a Ha w ->. now apply (Hno w).
Qed.

Lemma parsed_max_results_default (argv : list arg) (args : Namespace) :
  parse_args argv = Done args ->
  (forall w, ~ In (Opt_max_results w) argv) -> max_results args = MAX_RESULTS.
Proof.
  intros Hp Hno. apply parse_args_done in Hp as (ns & q & Hc & ->). cbn.
  eapply (consume_keeps (fun ns => max_results ns = MAX_RESULTS) (fun a => forall w, a <> Opt_max_results w));
    [ | | | exact Hc ]; [| | reflexivity].
  - intros ns0 a ns1 Ha HP Hact. action_cases a Hact; cbn; auto. now elim (Ha v).
  - apply Forall_forall. intros a Ha w ->. now apply (Hno w).
Qed.

End ParserFacts.

(** ** The run of the script *)

Section RunFacts.
Context `{Project}.

Lemma bind_ret {A B} (a : A) (f : A -> M B) : bind (ret a) f = f a.
Proof. unfold bind, ret. now destruct (f a). Qed.

Lemma bind_abort {A B} (e : failure) (f : A -> M B) :
  bind (lift (Abort e)) f = ([], Abort e).
Proof. reflexivity. Qed.

Lemma main_unparsed (argv : list arg) (e : usage_error) :
  parse_args argv = Abort (ParserError e) -> main argv = ([], Abort (ParserError e)).
Proof. intros Hp. unfold main. now rewrite Hp. Qed.

Lemma main_helped (argv : list arg) :
  parse_args argv = Abort Help_exit -> helped argv.
Proof. intros Hp. unfold helped, main. now rewrite Hp. Qed.

(** Whatever stops the parser, nothing has been called. *)
Lemma main_unparsed_trace (argv : list arg) (f : failure) (e : event) :
  parse_args argv = Abort f -> In e (trace (main argv)) -> e = Print_help.
Proof.
  intros Hp. destruct (parse_args_abort _ _ Hp) as [[u ->] | [-> _]].
  - rewrite (main_unparsed _ _ Hp). intros [].
  - rewrite (main_helped _ Hp). intros [<- | []]. reflexivity.
Qed.

Lemma main_parsed (argv : list arg) (args : Namespace) :
  parse_args argv = Done args -> main argv = run args.
Proof. intros Hp. unfold main. rewrite Hp. apply (bind_ret args run). Qed.

(** Line 98. *)
Lemma run_page_without_persist (args : Namespace) :
  truthy (page args) = true -> persist args = false ->
  run args = ([], Abort (ParserError (Message (lit "--page requires --persist")))).
Proof. intros Hpage Hpersist. unfold run. now rewrite Hpage, Hpersist. Qed.

(** Line 101. *)
Lemma run_persistence_without_design_system (args : Namespace) :
  persist args || truthy (page args) || truthy (output_dir args) = true ->
  design_system args = false ->
  exists e, run args = ([], Abort (ParserError e)).
Proof.
  intros Hany Hds. unfold run. rewrite Hany, Hds.
  destruct (truthy (page args) && negb (persist args)); cbn; eauto.
Qed.

(** Line 104. *)
Lemma run_json_with_design_system (args : Namespace) :
  design_system args = true -> json args = true ->
  exists e, run args = ([], Abort (ParserError e)).
Proof.
  intros Hds Hjson. unfold run. rewrite Hds, Hjson. cbn [negb].
  rewrite andb_false_r.
  destruct (truthy (page args) && negb (persist args)); cbn; eauto.
Qed.

(** Lines 108-134 once the three checks are passed. *)
Lemma run_design_system (args : Namespace) :
  design_system args = true -> json args = false ->
  truthy (page args) && negb (persist args) = false ->
  run args =
    bind (emit (Call_generate_design_system (query args) (project_name args)
                  (format args) (persist args) (page args) (output_dir args)))
      (fun _ =>
         bind (print (py_str (generate_design_system (query args) (project_name args)
                                (format args) (persist args) (page args)
                                (output_dir args))))
           (fun _ => when (persist args) (print_confirmation args))).
Proof.
  intros Hds Hjson Hpage. unfold run. rewrite Hds, Hjson, Hpage. cbn [negb].
  rewrite andb_false_r. cbn [when andb]. now rewrite !bind_ret.
Qed.

(** Lines 136-150 once the three checks are passed. *)
Lemma run_search (args : Namespace) :
  design_system args = false ->
  persist args = false -> truthy (page args) = false ->
  truthy (output_dir args) = false ->
  run args =
    if truthy (stack args)
    then bind (emit (Call_search_stack (query args)
                       (match stack args with Some s => s | None => [] end)
                       (max_results args)))
           (fun _ => show (json args)
                       (search_stack (query args)
                          (match stack args with Some s => s | None => [] end)
                          (max_results args)))
    else bind (emit (Call_search (query args) (domain args) (max_results args)))
           (fun _ => show (json args)
                       (search (query args) (domain args) (max_results args))).
Proof.
  intros Hds Hpersist Hpage Hout. unfold run. rewrite Hds, Hpersist, Hpage, Hout.
  cbn [when andb orb negb]. now rewrite !bind_ret.
Qed.

Lemma obind_abort {A B} (m : outcome A) (g : A -> outcome B) (f : failure) :
  obind m g = Abort f -> m = Abort f \/ exists a, m = Done a /\ g a = Abort f.
Proof. destruct m as [a | f']; cbn [obind]; intros Hm; [right; eauto | left; now inversion Hm]. Qed.

Lemma dict_item_abort {V} (d : dict V) (k : str) (f : failure) :
  dict_item d k = Abort f -> f = KeyError k.
Proof. unfold dict_item. destruct (dict_get d k); intros Hd; now inversion Hd. Qed.

Ltac missing_key Hf :=
  repeat (apply obind_abort in Hf as [Hf | (? & _ & Hf)];
          [apply dict_item_abort in Hf; eauto |]);
  try discriminate Hf.

Lemma header_lines_abort (r : result) (f : failure) :
  header_lines r = Abort f -> exists k, f = KeyError k.
Proof.
  unfold header_lines. intros Hf.
  apply obind_abort in Hf as [Hf | (head & _ & Hf)].
  - destruct (match dict_get r (lit "stack") with
              | Some o => py_truthy o
              | None => false
              end); missing_key Hf.
  - missing_key Hf.
Qed.

Lemma format_output_abort (r : result) (f : failure) :
  format_output r = Abort f -> forall e, f <> ParserError e.
Proof.
  unfold format_output. intros Hf e ->.
  destruct (dict_has r (lit "error")).
  - apply obind_abort in Hf as [Hf | (x & _ & Hf)]; [| discriminate].
    apply dict_item_abort in Hf. discriminate.
  - apply obind_abort in Hf as [Hf | (x & _ & Hf)]; [| discriminate].
    unfold format_output_lines in Hf.
    apply obind_abort in Hf as [Hf | (head & _ & Hf)].
    { apply header_lines_abort in Hf as [k Hf]. discriminate. }
    apply obind_abort in Hf as [Hf | (results & _ & Hf)].
    { apply dict_item_abort in Hf. discriminate. }
    destruct (py_rows results); discriminate.
Qed.

(** What [show] does: at most one line, and never a usage error. *)
Lemma show_cases (as_json : bool) (r : result) :
  (exists text, show as_json r = ([Print text], Done tt))
  \/ (exists f, show as_json r = ([], Abort f) /\ forall e, f <> ParserError e).
Proof.
  unfold show. destruct as_json.
  - destruct (json_dumps r) as [text |].
    + left. exists text. reflexivity.
    + right. exists Not_serialisable. split; [reflexivity | discriminate].
  - destruct (format_output r) as [text | f] eqn:Hf.
    + left. exists text. reflexivity.
    + right. exists f. split; [reflexivity | eauto using format_output_abort].
Qed.

Lemma print_confirmation_events (args : Namespace) :
  print_confirmation args =
    ( Print (newline ++ repeat_str (lit "=") 60)
        :: Print (persisted_line (design_system_dir args))
        :: Print (master_line (design_system_dir args))
        :: match page args with
           | Some (c :: p) =>
               [Print (page_line (design_system_dir args)
                         (_slugify_path_segment (c :: p) (lit "page")))]
           | _ => []
           end
        ++ [ Print [];
             Print (usage_line (design_system_dir args));
             Print (lit "   If exists, its rules override MASTER.md. Otherwise, use MASTER.md.");
             Print (repeat_str (lit "=") 60) ],
      Done tt ).
Proof.
  unfold print_confirmation. destruct (page args) as [[| c p] |]; reflexivity.
Qed.

(** Every event of a run that is a search carries [args.max_results]. *)
Lemma run_limits (args : Namespace) (e : event) (n : Z) :
  In e (trace (run args)) -> limit_of e = Some n -> n = max_results args.
Proof.
  destruct (truthy (page args) && negb (persist args)) eqn:Hpage.
  { apply andb_true_iff in Hpage as [Hp Hq]. apply negb_true_iff in Hq.
    rewrite (run_page_without_persist _ Hp Hq). intros []. }
  destruct (design_system args) eqn:Hds.
  - destruct (json args) eqn:Hjson.
    + destruct (run_json_with_design_system _ Hds Hjson) as [e0 ->]. intros [].
    + rewrite (run_design_system _ Hds Hjson Hpage).
      destruct (persist args).
      * cbn [when]. rewrite print_confirmation_events.
        destruct (page args) as [[| c p] |]; cbn;
          intros Hin Hl; repeat (destruct Hin as [<- | Hin]; [discriminate Hl |]);
          destruct Hin.
      * cbn. intros [<- | [<- | []]]; discriminate.
  - destruct (persist args || truthy (page args) || truthy (output_dir args)) eqn:Hany.
    + destruct (run_persistence_without_design_system _ Hany Hds) as [e0 ->]. intros [].
    + apply orb_false_iff in Hany as [Hany Hout].
      apply orb_false_iff in Hany as [Hpersist Hpg].
      rewrite (run_search _ Hds Hpersist Hpg Hout).
      destruct (truthy (stack args)).
      * destruct (show_cases (json args)
                    (search_stack (query args)
                       (match stack args with Some s => s | None => [] end)
                       (max_results args))) as [[text ->] | [f [-> _]]];
          cbn; intros Hin Hl;
          repeat (destruct Hin as [<- | Hin]; [cbn in Hl; congruence |]); destruct Hin.
      * destruct (show_cases (json args)
                    (search (query args) (domain args) (max_results args)))
          as [[text ->] | [f [-> _]]];
          cbn; intros Hin Hl;
          repeat (destruct Hin as [<- | Hin]; [cbn in Hl; congruence |]); destruct Hin.
Qed.

End RunFacts.

(** ** Flag combinations and dispatch *)

Section CommandLine.
Context `{Project}.

Lemma unparsed_stopped (argv : list arg) (f : failure) :
  parse_args argv = Abort f -> stopped argv.
Proof.
  intros Hp. destruct (parse_args_abort _ _ Hp) as [[e ->] | [-> Hin]].
  - left. exists e. now apply main_unparsed.
  - right. split; [exact Hin | now apply main_helped].
Qed.









(** C6: on a command line without [--max-results], every search that is
    run is handed the limit 3. *)
Theorem default_limit_is_three (argv : list arg) (e : event) (n : Z) :
  (forall v, ~ In (Opt_max_results v) argv) ->
  In e (trace (main argv)) -> limit_of e = Some n -> n = 3%Z.
Proof.
  intros Hno Hin Hl. destruct (parse_args argv) as [args | f] eqn:Hp.
  - rewrite (main_parsed _ _ Hp) in Hin.
    rewrite (run_limits _ _ _ Hin Hl).
    now rewrite (parsed_max_results_default _ _ Hp Hno).
  - rewrite (main_unparsed_trace _ _ _ Hp Hin) in Hl. discriminate Hl.
Qed.




(** C10, as the code has it: a parsed command line with no [--domain], no
    [--stack], no [--design-system], no [--persist] and no non-empty
    [--page] or [--output-dir] calls [search] with the query string, the
    selector [None] and the limit, prints at most the result after it, and
    does not end in a usage error. *)
Theorem search_without_selector (argv : list arg) (args : Namespace) :
  parse_args argv = Done args ->
  (forall w, ~ In (Opt_domain w) argv) ->
  (forall w, ~ In (Opt_stack w) argv) ->
  ~ In Opt_design_system argv ->
  ~ In Opt_persist argv ->
  (forall w, In (Opt_page w) argv -> w = []) ->
  (forall w, In (Opt_output_dir w) argv -> w = []) ->
  In (Positional (query args)) argv
  /\ main argv =
       bind (emit (Call_search (query args) None (max_results args)))
         (fun _ => show (json args) (search (query args) None (max_results args)))
  /\ (exists rest,
        trace (main argv) = Call_search (query args) None (max_results args) :: rest
        /\ forallb is_print rest = true)
  /\ (forall e, ending (main argv) <> Abort (ParserError e)).
Proof.
  intros Hp Hdom Hstack Hds Hpersist Hpage Hout.
  assert (main argv =
            bind (emit (Call_search (query args) None (max_results args)))
              (fun _ => show (json args) (search (query args) None (max_results args))))
    as Hmain.
  { rewrite (main_parsed _ _ Hp).
    rewrite (run_search args (parsed_design_system _ _ Hp Hds) (parsed_persist _ _ Hp Hpersist)
               (parsed_page_falsy _ _ Hp Hpage) (parsed_output_dir_falsy _ _ Hp Hout)).
    now rewrite (parsed_stack_none _ _ Hp Hstack), (parsed_domain_none _ _ Hp Hdom). }
  split; [exact (parsed_query _ _ Hp) |]. split; [exact Hmain |].
  rewrite Hmain.
  destruct (show_cases (json args) (search (query args) None (max_results args)))
    as [[text ->] | [f [-> Hf]]]; cbn.
  - split; [now exists [Print text] | discriminate].
  - split; [now exists [] |]. intros e He. inversion He. now apply (Hf e).
Qed.

End CommandLine.

(** ** Slugs *)

Section SlugFacts.

Lemma lower_char_fixed (c : char) :
  is_word_char c || N.eqb c separator = true -> lower_char c = c.
Proof.
  unfold is_word_char, lower_char, separator. intros Hc.
  destruct (N.leb_spec 65 c); destruct (N.leb_spec c 90); cbn; try reflexivity.
  exfalso.
  destruct (N.leb_spec 97 c); destruct (N.leb_spec c 122);
    destruct (N.leb_spec 48 c); destruct (N.leb_spec c 57);
    destruct (N.eqb_spec c 45); cbn in Hc; try discriminate; lia.
Qed.

Lemma separated_tail (c : char) (s : str) :
  separated (c :: s) = true -> separated s = true.
Proof. cbn [separated]. intros Hs. now apply andb_true_iff in Hs. Qed.

Lemma separated_head (c : char) (s : str) :
  separated (c :: s) = true -> is_word_char c || N.eqb c separator = true.
Proof.
  cbn [separated]. intros Hs. apply andb_true_iff in Hs as [Hc _].
  destruct (is_word_char c); [reflexivity |]. cbn in *.
  now apply andb_true_iff in Hc.
Qed.

Lemma replace_runs_separated (s : str) : separated (replace_runs s) = true.
Proof.
  induction s as [| c s IH]; [reflexivity |].
  cbn [replace_runs]. destruct (is_word_char c) eqn:Hc.
  - cbn [separated]. now rewrite Hc, IH.
  - destruct s as [| d s']; [reflexivity |].
    destruct (is_word_char d) eqn:Hd; [| exact IH].
    cbn [replace_runs] in IH |- *. rewrite Hd in IH |- *.
    cbn [separated] in IH |- *. rewrite Hd in IH |- *. cbn in IH |- *. exact IH.
Qed.

Lemma separated_replace_runs (s : str) : separated s = true -> replace_runs s = s.
Proof.
  induction s as [| c s IH]; [reflexivity |]. intros Hs.
  pose proof (IH (separated_tail _ _ Hs)) as IH'.
  cbn [replace_runs separated] in *. destruct (is_word_char c).
  - now rewrite IH'.
  - cbn in Hs. apply andb_true_iff in Hs as [Hs _].
    apply andb_true_iff in Hs as [Hc Hd]. apply N.eqb_eq in Hc. subst c.
    destruct s as [| d s']; [reflexivity |]. rewrite Hd. now rewrite IH'.
Qed.

Lemma separated_lowercase (s : str) : separated s = true -> lowercase s = s.
Proof.
  induction s as [| c s IH]; [reflexivity |]. intros Hs. cbn [lowercase map].
  rewrite (lower_char_fixed _ (separated_head _ _ Hs)).
  f_equal. exact (IH (separated_tail _ _ Hs)).
Qed.

Lemma separated_lstrip (s : str) : separated s = true -> separated (lstrip s) = true.
Proof.
  induction s as [| c s IH]; [reflexivity |]. intros Hs. cbn [lstrip].
  destruct (N.eqb c separator); [| exact Hs]. exact (IH (separated_tail _ _ Hs)).
Qed.

Lemma rstrip_head (s : str) (c : char) (r : str) :
  rstrip s = c :: r -> exists s', s = c :: s'.
Proof.
  destruct s as [| c0 s']; cbn [rstrip]; [discriminate |].
  destruct (rstrip s'); [destruct (N.eqb c0 separator) |];
    intros Hr; inversion Hr; subst; eauto.
Qed.

Lemma separated_rstrip (s : str) : separated s = true -> separated (rstrip s) = true.
Proof.
  induction s as [| c s IH]; [reflexivity |]. intros Hs.
  pose proof (IH (separated_tail _ _ Hs)) as IH'. cbn [rstrip].
  destruct (rstrip s) as [| d r] eqn:Hr.
  - destruct (N.eqb c separator) eqn:Hc; [reflexivity |].
    cbn [separated]. pose proof (separated_head _ _ Hs) as Hh. rewrite Hc in Hh.
    rewrite orb_false_r in Hh. now rewrite Hh.
  - destruct (rstrip_head _ _ _ Hr) as [s' ->].
    cbn [separated] in Hs |- *. apply andb_true_iff in Hs as [Hc _].
    cbn [separated] in IH'. now rewrite Hc, IH'.
Qed.

Lemma lstrip_head (s : str) (c : char) (r : str) :
  lstrip s = c :: r -> N.eqb c separator = false.
Proof.
  induction s as [| c0 s IH]; cbn [lstrip]; [discriminate |].
  destruct (N.eqb c0 separator) eqn:Hc; [exact IH |].
  intros Hr. inversion Hr; subst. exact Hc.
Qed.

Lemma rstrip_rstrip (s : str) : rstrip (rstrip s) = rstrip s.
Proof.
  induction s as [| c s IH]; [reflexivity |]. cbn [rstrip].
  destruct (rstrip s) as [| d r] eqn:Hr.
  - destruct (N.eqb c separator) eqn:Hc; [reflexivity |]. cbn. now rewrite Hc.
  - change (rstrip (c :: d :: r)) with
      (match rstrip (d :: r) with
       | [] => if N.eqb c separator then [] else [c]
       | x :: r' => c :: x :: r'
       end).
    now rewrite IH.
Qed.

Lemma strip_strip (s : str) : strip (strip s) = strip s.
Proof.
  unfold strip. destruct (rstrip (lstrip s)) as [| c r] eqn:Hr; [reflexivity |].
  destruct (rstrip_head _ _ _ Hr) as [s' Hs'].
  pose proof (lstrip_head _ _ _ Hs') as Hc.
  cbn [lstrip]. rewrite Hc, <- Hr. apply rstrip_rstrip.
Qed.

Lemma normalise_separated (name : str) : separated (normalise name) = true.
Proof.
  unfold normalise, strip.
  apply separated_rstrip, separated_lstrip, replace_runs_separated.
Qed.

Lemma normalise_idempotent (name : str) : normalise (normalise name) = normalise name.
Proof.
  pose proof (normalise_separated name) as Hs.
  unfold normalise at 1.
  rewrite (separated_lowercase _ Hs), (separated_replace_runs _ Hs).
  unfold normalise. apply strip_strip.
Qed.

(** With a fallback that is its own slug, slugging twice is slugging once. *)
Lemma slugify_twice (name fallback : str) :
  slugify fallback fallback = fallback ->
  slugify (slugify name fallback) fallback = slugify name fallback.
Proof.
  intros Hfb. unfold slugify at 2 3.
  destruct (normalise name) as [| c r] eqn:Hn; [exact Hfb |].
  unfold slugify. rewrite <- Hn, normalise_idempotent. now rewrite Hn.
Qed.

(** C7: [slugify] yields a slug for every name, "default" for the empty
    name and "etc" for "../../etc" among them, and with either fallback the
    script passes, "default" for the project and "page" for the page,
    slugging a slug again returns it unchanged. *)
Theorem slugify_total_idempotent (name : str) :
  (exists slug, slugify name (lit "default") = slug)
  /\ slugify [] (lit "default") = lit "default"
  /\ slugify (lit "../../etc") (lit "default") = lit "etc"
  /\ normalise (normalise name) = normalise name
  /\ slugify (slugify name (lit "default")) (lit "default") = slugify name (lit "default")
  /\ slugify (slugify name (lit "page")) (lit "page") = slugify name (lit "page").
Proof.
  split; [now eexists |].
  split; [reflexivity |]. split; [reflexivity |].
  split; [apply normalise_idempotent |].
  split; apply slugify_twice; reflexivity.
Qed.

End SlugFacts.

(** ** Ranking *)

Section RankerFacts.
Variable bm25 : str -> list (dict str) -> dict str -> Q.

Lemma before_le (a b : ranked) : before a b -> (relevance b <= relevance a)%Q.
Proof.
  intros [Hlt | [Heq _]].
  - now apply Qlt_le_weak.
  - rewrite Heq. apply Qle_refl.
Qed.

Lemma insert_by_score_in (x z : ranked) (l : list ranked) :
  In z (insert_by_score x l) -> z = x \/ In z l.
Proof.
  induction l as [| y l IH]; cbn [insert_by_score].
  - intros [<- | []]. now left.
  - destruct (Qle_bool (relevance y) (relevance x)).
    + intros [<- | Hin]; [now left | now right].
    + intros [<- | Hin]; [right; now left |].
      destruct (IH Hin) as [-> | Hz]; [now left | right; now right].
Qed.

Lemma sort_by_score_in (z : ranked) (l : list ranked) :
  In z (sort_by_score l) -> In z l.
Proof.
  induction l as [| x l IH]; cbn [sort_by_score]; [auto |].
  intros Hin. destruct (insert_by_score_in _ _ _ Hin) as [-> | Hz];
    [now left | right; auto].
Qed.

(** Inserting a result that stood before all the others keeps the ranking
    ordered. *)
Lemma insert_by_score_sorted (x : ranked) (l : list ranked) :
  StronglySorted before l -> Forall (earlier x) l ->
  StronglySorted before (insert_by_score x l).
Proof.
  induction l as [| y l IH]; intros Hs He; cbn [insert_by_score].
  - constructor; constructor.
  - inversion Hs as [| ? ? Hs' Hy]; subst. inversion He as [| ? ? Hxy He']; subst.
    destruct (Qle_bool (relevance y) (relevance x)) eqn:Hle.
    + apply Qle_bool_iff in Hle. constructor; [exact Hs |].
      apply Forall_forall. intros z Hz.
      assert (relevance z <= relevance x)%Q as Hzx.
      { destruct Hz as [<- | Hz]; [exact Hle |].
        apply Qle_trans with (relevance y); [| exact Hle].
        apply before_le. rewrite Forall_forall in Hy. now apply Hy. }
      assert (earlier x z) as Hxz.
      { rewrite Forall_forall in He. now apply He. }
      apply Qle_lteq in Hzx as [Hlt | Heq]; [now left | right].
      split; [symmetry; exact Heq | exact Hxz].
    + constructor; [now apply IH |].
      apply Forall_forall. intros z Hz.
      destruct (insert_by_score_in _ _ _ Hz) as [-> | Hin].
      * left. apply Qnot_le_lt. intros Hc. apply Qle_bool_iff in Hc. congruence.
      * rewrite Forall_forall in Hy. now apply Hy.
Qed.

Lemma sort_by_score_sorted (l : list ranked) :
  StronglySorted earlier l -> StronglySorted before (sort_by_score l).
Proof.
  induction l as [| x l IH]; intros Hs; cbn [sort_by_score]; [constructor |].
  inversion Hs as [| ? ? Hs' Hx]; subst.
  apply insert_by_score_sorted; [now apply IH |].
  apply Forall_forall. intros z Hz. rewrite Forall_forall in Hx.
  now apply Hx, sort_by_score_in.
Qed.

(** Where a scored row comes from. *)
Lemma score_rows_in (query : str) (corpus : list (dict str)) (rows : list (dict str)) :
  forall (i : nat) (r : ranked),
    In r (score_rows bm25 query corpus i rows) ->
    (i <= row_index r)%nat
    /\ nth_error rows (row_index r - i) = Some (record r)
    /\ relevance r = bm25 query corpus (record r).
Proof.
  induction rows as [| row rows IH]; intros i r; cbn [score_rows]; [intros [] |].
  intros [<- | Hin]; cbn.
  - rewrite Nat.sub_diag. auto.
  - destruct (IH _ _ Hin) as (Hle & Hnth & Hrel).
    split; [lia |]. split; [| exact Hrel].
    replace (row_index r - i)%nat with (S (row_index r - S i)) by lia. exact Hnth.
Qed.

Lemma score_rows_earlier (query : str) (corpus : list (dict str)) (rows : list (dict str)) :
  forall i, StronglySorted earlier (score_rows bm25 query corpus i rows).
Proof.
  induction rows as [| row rows IH]; intros i; cbn [score_rows]; constructor; [apply IH |].
  apply Forall_forall. intros r Hin.
  destruct (score_rows_in _ _ _ _ _ Hin) as (Hle & _). unfold earlier. cbn. lia.
Qed.

Lemma filter_sorted {A} (R : A -> A -> Prop) (keep : A -> bool) (l : list A) :
  StronglySorted R l -> StronglySorted R (filter keep l).
Proof.
  induction 1 as [| x l Hs IH Hx]; cbn [filter]; [constructor |].
  destruct (keep x); [| exact IH]. constructor; [exact IH |].
  apply Forall_forall. intros z Hz. apply filter_In in Hz as [Hz _].
  rewrite Forall_forall in Hx. now apply Hx.
Qed.

Lemma firstn_sorted {A} (R : A -> A -> Prop) (l : list A) :
  StronglySorted R l -> forall n, StronglySorted R (firstn n l).
Proof.
  induction 1 as [| x l Hs IH Hx]; intros [| n]; cbn [firstn]; try constructor.
  - apply IH.
  - apply Forall_forall. intros z Hz. rewrite Forall_forall in Hx.
    apply Hx. revert Hz. clear. revert n.
    induction l as [| y l IHl]; intros [| n]; cbn [firstn In]; try tauto.
    intros [<- | Hz]; [now left | right; eauto].
Qed.

Lemma sorted_nth {A} (R : A -> A -> Prop) (l : list A) :
  StronglySorted R l ->
  forall i j a b, (i < j)%nat -> nth_error l i = Some a -> nth_error l j = Some b -> R a b.
Proof.
  induction 1 as [| x l Hs IH Hx]; intros i j a b Hij Ha Hb.
  - destruct i; discriminate.
  - destruct j as [| j]; [lia |]. cbn in Hb. destruct i as [| i]; cbn in Ha.
    + inversion Ha; subst. rewrite Forall_forall in Hx.
      apply Hx. eapply nth_error_In; eauto.
    + apply (IH i j); [lia | assumption | assumption].
Qed.

Lemma rank_sorted (query : str) (rows : list (dict str)) (limit : Z) :
  StronglySorted before (rank bm25 query rows limit).
Proof.
  unfold rank. apply firstn_sorted, sort_by_score_sorted, filter_sorted.
  apply score_rows_earlier.
Qed.

Lemma rank_in (query : str) (rows : list (dict str)) (limit : Z) (r : ranked) :
  In r (rank bm25 query rows limit) ->
  nth_error rows (row_index r) = Some (record r)
  /\ relevance r = bm25 query rows (record r).
Proof.
  unfold rank. intros Hin.
  assert (In r (score_rows bm25 query rows 0 rows)) as Hs.
  { revert Hin. generalize (Z.to_nat limit). intros n Hin.
    assert (forall (l : list ranked) m, In r (firstn m l) -> In r l) as Hfirst.
    { induction l as [| y l IHl]; intros [| m]; cbn [firstn In]; try tauto.
      intros [<- | Hz]; [now left | right; eauto]. }
    apply Hfirst, sort_by_score_in, filter_In in Hin. tauto. }
  destruct (score_rows_in _ _ _ _ _ Hs) as (_ & Hnth & Hrel).
  now rewrite Nat.sub_0_r in Hnth.
Qed.

(** C8: for a non-empty query and a non-empty corpus, and any limit, the
    scores of the ranking do not increase from one result to the next, and
    of two results with the same score the one whose row comes first in the
    corpus comes first; every result is a row of the corpus with its
    score. *)
Theorem rank_sorted_stable (query : str) (rows : list (dict str)) (limit : Z)
        (i j : nat) (a b : ranked) :
  query <> [] -> rows <> [] ->
  (i < j)%nat ->
  nth_error (rank bm25 query rows limit) i = Some a ->
  nth_error (rank bm25 query rows limit) j = Some b ->
  (relevance b <= relevance a)%Q
  /\ ((relevance a == relevance b)%Q -> (row_index a < row_index b)%nat)
  /\ nth_error rows (row_index a) = Some (record a)
  /\ nth_error rows (row_index b) = Some (record b)
  /\ relevance a = bm25 query rows (record a)
  /\ relevance b = bm25 query rows (record b).
Proof.
  intros _ _ Hij Ha Hb.
  pose proof (sorted_nth _ _ (rank_sorted query rows limit) _ _ _ _ Hij Ha Hb) as Hab.
  destruct (rank_in _ _ _ _ (nth_error_In _ _ Ha)) as [Hna Hra].
  destruct (rank_in _ _ _ _ (nth_error_In _ _ Hb)) as [Hnb Hrb].
  split; [now apply before_le |]. split; [| tauto].
  intros Heq. destruct Hab as [Hlt | [_ Hidx]]; [| exact Hidx].
  rewrite Heq in Hlt. now apply Qlt_irrefl in Hlt.
Qed.

End RankerFacts.

(** * The script on concrete command lines *)











(** [dash --stack react] searches the stack with the limit 3. *)
Lemma default_limit_is_three_witness :
  (forall v, ~ In (Opt_max_results v) [Positional (lit "dash"); Opt_stack (lit "react")])
  /\ In (Call_search_stack (lit "dash") (lit "react") (max_results defaults))
        (trace (main [Positional (lit "dash"); Opt_stack (lit "react")]))
  /\ limit_of (Call_search_stack (lit "dash") (lit "react") (max_results defaults))
     = Some (max_results defaults)
  /\ max_results defaults = 3%Z.
Proof.
  assert (forall v, ~ In (Opt_max_results v)
                      [Positional (lit "dash"); Opt_stack (lit "react")]) as Hno.
  { intros v Hv. cbn in Hv. intuition discriminate. }
  assert (In (Call_search_stack (lit "dash") (lit "react") (max_results defaults))
             (trace (main [Positional (lit "dash"); Opt_stack (lit "react")]))) as Hin.
  { vm_compute. left. reflexivity. }
  split; [exact Hno |]. split; [exact Hin |]. split; [reflexivity |].
  exact (default_limit_is_three
           [Positional (lit "dash"); Opt_stack (lit "react")]
           (Call_search_stack (lit "dash") (lit "react") (max_results defaults))
           (max_results defaults) Hno Hin eq_refl).
Defined.

(** The query "plain" over [sample_corpus]: the second row first, then the
    first and the third, which score the same. *)
Lemma rank_sorted_stable_witness :
  lit "plain" <> []
  /\ sample_corpus <> []
  /\ (1 < 2)%nat
  /\ map (fun r => (row_index r, relevance r)) (rank sample_score (lit "plain") sample_corpus 3)
     = [ (1%nat, 2%Q); (0%nat, 1%Q); (2%nat, 1%Q) ]
  /\ exists a b,
       nth_error (rank sample_score (lit "plain") sample_corpus 3) 1 = Some a
       /\ nth_error (rank sample_score (lit "plain") sample_corpus 3) 2 = Some b
       /\ (relevance b <= relevance a)%Q
       /\ ((relevance a == relevance b)%Q -> (row_index a < row_index b)%nat)
       /\ nth_error sample_corpus (row_index a) = Some (record a)
       /\ nth_error sample_corpus (row_index b) = Some (record b)
       /\ relevance a = sample_score (lit "plain") sample_corpus (record a)
       /\ relevance b = sample_score (lit "plain") sample_corpus (record b).
Proof.
  split; [vm_compute; discriminate |]. split; [discriminate |]. split; [lia |].
  split; [vm_compute; reflexivity |].
  eexists. eexists.
  split; [vm_compute; reflexivity |]. split; [vm_compute; reflexivity |].
  apply (rank_sorted_stable sample_score (lit "plain") sample_corpus 3 1 2);
    [vm_compute; discriminate | discriminate | lia
     | vm_compute; reflexivity | vm_compute; reflexivity].
Defined.


(** C10 as stated fails: without a selector and without [--design-system],
    [--persist] is refused and no search is called; so is a command line
    without a query string. *)
Lemma persist_without_selector_rejected :
  (forall w, ~ In (Opt_domain w) [Positional (lit "dash"); Opt_persist])
  /\ (forall w, ~ In (Opt_stack w) [Positional (lit "dash"); Opt_persist])
  /\ ~ In Opt_design_system [Positional (lit "dash"); Opt_persist]
  /\ main [Positional (lit "dash"); Opt_persist]
     = ([], Abort (ParserError (Message
          (lit "--persist/--page/--output-dir can only be used with --design-system"))))
  /\ main [] = ([], Abort (ParserError (Required (lit "query")))).
Proof.
  split; [intros w Hw; cbn in Hw; intuition discriminate |].
  split; [intros w Hw; cbn in Hw; intuition discriminate |].
  split; [cbn; intuition discriminate |].
  split; vm_compute; reflexivity.
Qed.

(** [dash --max-results 5] searches with the selector [None] and the limit 5. *)
Lemma search_without_selector_witness :
  exists args,
    parse_args [Positional (lit "dash"); Opt_max_results (lit "5")] = Done args
    /\ (forall w, ~ In (Opt_domain w) [Positional (lit "dash"); Opt_max_results (lit "5")])
    /\ (forall w, ~ In (Opt_stack w) [Positional (lit "dash"); Opt_max_results (lit "5")])
    /\ ~ In Opt_design_system [Positional (lit "dash"); Opt_max_results (lit "5")]
    /\ ~ In Opt_persist [Positional (lit "dash"); Opt_max_results (lit "5")]
    /\ (forall w, In (Opt_page w) [Positional (lit "dash"); Opt_max_results (lit "5")]
                  -> w = [])
    /\ (forall w, In (Opt_output_dir w) [Positional (lit "dash"); Opt_max_results (lit "5")]
                  -> w = [])
    /\ query args = lit "dash"
    /\ max_results args = 5%Z
    /\ exists rest,
         trace (main [Positional (lit "dash"); Opt_max_results (lit "5")])
         = Call_search (query args) None (max_results args) :: rest
         /\ forallb is_print rest = true.
Proof.
  eexists. split; [vm_compute; reflexivity |].
  assert (forall o : str -> arg, (forall w, o w <> Positional (lit "dash")) ->
            (forall w, o w <> Opt_max_results (lit "5")) ->
            forall w, ~ In (o w) [Positional (lit "dash"); Opt_max_results (lit "5")])
    as Hnone.
  { intros o Hq Hm w [Hw | [Hw | []]]; [now apply (Hq w) | now apply (Hm w)]. }
  assert (forall w, ~ In (Opt_domain w) [Positional (lit "dash"); Opt_max_results (lit "5")])
    as Hd by (apply Hnone; discriminate).
  assert (forall w, ~ In (Opt_stack w) [Positional (lit "dash"); Opt_max_results (lit "5")])
    as Hs by (apply Hnone; discriminate).
  assert (forall w, In (Opt_page w) [Positional (lit "dash"); Opt_max_results (lit "5")]
                    -> w = []) as Hp.
  { intros w Hw. exfalso. revert Hw. apply Hnone; discriminate. }
  assert (forall w, In (Opt_output_dir w) [Positional (lit "dash"); Opt_max_results (lit "5")]
                    -> w = []) as Ho.
  { intros w Hw. exfalso. revert Hw. apply Hnone; discriminate. }
  split; [exact Hd |]. split; [exact Hs |].
  split; [cbn; intuition discriminate |]. split; [cbn; intuition discriminate |].
  split; [exact Hp |]. split; [exact Ho |].
  split; [vm_compute; reflexivity |]. split; [vm_compute; reflexivity |].
  match goal with
  | |- exists rest, _ = Call_search (query ?a) _ _ :: rest /\ _ =>
      destruct (search_without_selector
                  [Positional (lit "dash"); Opt_max_results (lit "5")] a)
        as (_ & _ & Hcall & _)
  end;
    [vm_compute; reflexivity | exact Hd | exact Hs | cbn; intuition discriminate
     | cbn; intuition discriminate | exact Hp | exact Ho | exact Hcall].
Defined.


(** * Further properties of the script *)

(** ** The text report, beyond its values *)

Section ReportFacts.
Context `{Python}.

Lemma dict_item_get {V} (d : dict V) (k : str) :
  dict_has d k = true -> exists v, dict_item d k = Done v.
Proof.
  unfold dict_has, dict_item. destruct (dict_get d k) as [v |]; [eauto | discriminate].
Qed.

Lemma header_lines_present (r : result) :
  dict_has r (lit "query") = true ->
  dict_has r (lit "file") = true ->
  dict_has r (lit "count") = true ->
  dict_has r (lit "domain") = true
  \/ (exists o, dict_get r (lit "stack") = Some o /\ py_truthy o = true) ->
  exists head, header_lines r = Done head /\ List.length head = 3%nat.
Proof.
  intros Hq Hf Hc Hkind. unfold header_lines.
  destruct (dict_item_get _ _ Hq) as [q ->].
  destruct (dict_item_get _ _ Hf) as [f ->].
  destruct (dict_item_get _ _ Hc) as [c ->].
  destruct (dict_get r (lit "stack")) as [o |] eqn:Hs.
  - destruct (py_truthy o) eqn:Ho.
    + unfold dict_item at 1. rewrite Hs. eexists. split; reflexivity.
    + destruct Hkind as [Hd | (o' & Ho' & Ht)]; [| congruence].
      destruct (dict_item_get _ _ Hd) as [d ->]. eexists. split; reflexivity.
  - destruct Hkind as [Hd | (o' & Ho' & Ht)]; [| discriminate].
    destruct (dict_item_get _ _ Hd) as [d ->]. eexists. split; reflexivity.
Qed.

(** X2: an envelope without ["error"] that has the keys ["query"], ["file"],
    ["count"], a ["results"] entry that is a list of rows, and a ["domain"]
    key or a true ["stack"] entry is always rendered: three header lines,
    then the lines of the rows. *)
Theorem format_output_well_formed (r : result) (o : pyobj) (rows : list row) :
  dict_has r (lit "error") = false ->
  dict_has r (lit "query") = true ->
  dict_has r (lit "file") = true ->
  dict_has r (lit "count") = true ->
  dict_has r (lit "domain") = true
  \/ (exists s, dict_get r (lit "stack") = Some s /\ py_truthy s = true) ->
  dict_get r (lit "results") = Some o ->
  py_rows o = Some rows ->
  exists head,
    List.length head = 3%nat
    /\ format_output r = Done (join newline (head ++ rows_lines 1 rows)).
Proof.
  intros Herr Hq Hf Hc Hkind Hres Hrows.
  destruct (header_lines_present r Hq Hf Hc Hkind) as (head & Hhead & Hlen).
  exists head. split; [exact Hlen |].
  unfold format_output, format_output_lines. rewrite Herr, Hhead. cbn [obind].
  unfold dict_item. rewrite Hres. cbn [obind]. now rewrite Hrows.
Qed.

Lemma dict_item_missing {V} (d : dict V) (k : str) (f : failure) :
  dict_item d k = Abort f -> f = KeyError k /\ dict_get d k = None.
Proof.
  unfold dict_item. destruct (dict_get d k); intros Hd; inversion Hd. now split.
Qed.

Lemma header_lines_missing (r : result) (f : failure) :
  header_lines r = Abort f ->
  exists k, f = KeyError k /\ dict_get r k = None
            /\ In k [lit "domain"; lit "query"; lit "file"; lit "count"].
Proof.
  unfold header_lines. intros Hf.
  apply obind_abort in Hf as [Hf | (head & _ & Hf)].
  - destruct (dict_get r (lit "stack")) as [o |] eqn:Hs.
    + destruct (py_truthy o).
      * apply obind_abort in Hf as [Hf | (x & _ & Hf)].
        { apply dict_item_missing in Hf as [_ Hf]. congruence. }
        apply obind_abort in Hf as [Hf | (y & _ & Hf)]; [| discriminate Hf].
        apply dict_item_missing in Hf as [-> Hf].
        exists (lit "query"). repeat split; [exact Hf | right; now left].
      * apply obind_abort in Hf as [Hf | (x & _ & Hf)].
        { apply dict_item_missing in Hf as [-> Hf].
          exists (lit "domain"). repeat split; [exact Hf | now left]. }
        apply obind_abort in Hf as [Hf | (y & _ & Hf)]; [| discriminate Hf].
        apply dict_item_missing in Hf as [-> Hf].
        exists (lit "query"). repeat split; [exact Hf | right; now left].
    + apply obind_abort in Hf as [Hf | (x & _ & Hf)].
      { apply dict_item_missing in Hf as [-> Hf].
        exists (lit "domain"). repeat split; [exact Hf | now left]. }
      apply obind_abort in Hf as [Hf | (y & _ & Hf)]; [| discriminate Hf].
      apply dict_item_missing in Hf as [-> Hf].
      exists (lit "query"). repeat split; [exact Hf | right; now left].
  - apply obind_abort in Hf as [Hf | (x & _ & Hf)].
    { apply dict_item_missing in Hf as [-> Hf].
      exists (lit "file"). repeat split; [exact Hf | do 2 right; now left]. }
    apply obind_abort in Hf as [Hf | (y & _ & Hf)]; [| discriminate Hf].
    apply dict_item_missing in Hf as [-> Hf].
    exists (lit "count"). repeat split; [exact Hf | do 3 right; now left].
Qed.

(** X3: when [format_output] fails, it is with a [KeyError] for one of
    ["domain"], ["query"], ["file"], ["count"], ["results"] that the envelope
    really lacks, or because the ["results"] entry is there and is not a
    list of rows. *)
Theorem format_output_failure (r : result) (f : failure) :
  format_output r = Abort f ->
  (exists k, f = KeyError k /\ dict_get r k = None
             /\ In k [lit "domain"; lit "query"; lit "file"; lit "count"; lit "results"])
  \/ (f = TypeError
      /\ exists o, dict_get r (lit "results") = Some o /\ py_rows o = None).
Proof.
  unfold format_output. intros Hf.
  destruct (dict_has r (lit "error")) eqn:Herr.
  - destruct (dict_item_get _ _ Herr) as [e He]. rewrite He in Hf. discriminate Hf.
  - apply obind_abort in Hf as [Hf | (x & _ & Hf)]; [| discriminate Hf].
    unfold format_output_lines in Hf.
    apply obind_abort in Hf as [Hf | (head & _ & Hf)].
    { left. apply header_lines_missing in Hf as (k & -> & Hk & Hin).
      exists k. repeat split; [exact Hk |].
      cbn [In] in Hin |- *. tauto. }
    apply obind_abort in Hf as [Hf | (o & Ho & Hf)].
    { left. apply dict_item_missing in Hf as [-> Hf].
      exists (lit "results"). repeat split; [exact Hf | do 4 right; now left]. }
    right. destruct (py_rows o) eqn:Hrows; [discriminate Hf |].
    inversion Hf. split; [reflexivity |]. exists o.
    split; [now apply dict_item_done | exact Hrows].
Qed.

Lemma header_lines_length (r : result) (head : list str) :
  header_lines r = Done head -> List.length head = 3%nat.
Proof.
  unfold header_lines. intros Hh.
  apply obind_done in Hh as (top & Htop & Hh).
  apply obind_done in Hh as (f & _ & Hh). apply obind_done in Hh as (c & _ & Hh).
  inversion Hh; subst. rewrite length_app. cbn [List.length].
  assert (List.length top = 2%nat) as ->; [| reflexivity].
  destruct (match dict_get r (lit "stack") with
            | Some o => py_truthy o
            | None => false
            end);
    apply obind_done in Htop as (x & _ & Htop);
    apply obind_done in Htop as (y & _ & Htop); now inversion Htop.
Qed.

Lemma rows_lines_length (rows : list row) :
  forall i, List.length (rows_lines i rows)
            = list_sum (map (fun rw => 2 + List.length rw)%nat rows).
Proof.
  induction rows as [| rw rows IH]; intros i; cbn [rows_lines map list_sum]; [reflexivity |].
  rewrite length_app, IH. unfold row_lines. cbn [List.length].
  rewrite length_app, length_map. cbn [List.length]. unfold list_sum. cbn [fold_right].
  lia.
Qed.


Lemma rows_lines_app (a b : list row) :
  forall i, rows_lines i (a ++ b)
            = rows_lines i a ++ rows_lines (i + Z.of_nat (List.length a)) b.
Proof.
  induction a as [| rw a IH]; intros i.
  - cbn. now rewrite Z.add_0_r.
  - cbn [app rows_lines List.length]. rewrite IH, <- app_assoc.
    do 3 f_equal. lia.
Qed.

(** X5: the rows are reported in the order of the envelope and numbered from
    1: the row at position [i] is the block titled "### Result i+1", with
    its fields in order and an empty line after them. *)
Theorem format_output_numbers_rows (r : result) (lines : list str)
        (results : pyobj) (rows : list row) (i : nat) (rw : row) :
  format_output_lines r = Done lines ->
  dict_get r (lit "results") = Some results ->
  py_rows results = Some rows ->
  nth_error rows i = Some rw ->
  exists before_it after_it,
    lines = before_it
              ++ ((lit "### Result " ++ str_of_Z (Z.of_nat i + 1))
                    :: map (fun kv => field_line (fst kv) (snd kv)) rw ++ [ [] ])
              ++ after_it
    /\ List.length before_it
       = (3 + list_sum (map (fun x => 2 + List.length x) (firstn i rows)))%nat.
Proof.
  intros Hl Hr Hp Hn.
  apply format_output_lines_done in Hl as (head & results' & rows' & Hh & Hr' & Hp' & ->).
  assert (rows' = rows) as -> by congruence.
  apply nth_error_split in Hn as (a & b & -> & Hlen).
  exists (head ++ rows_lines 1 a), (rows_lines (1 + Z.of_nat (List.length a) + 1) b).
  split.
  - rewrite rows_lines_app. cbn [rows_lines]. unfold row_lines.
    rewrite <- !app_assoc. do 2 f_equal. rewrite Hlen.
    replace (1 + Z.of_nat i)%Z with (Z.of_nat i + 1)%Z by lia. reflexivity.
  - rewrite length_app, (header_lines_length _ _ Hh), rows_lines_length.
    rewrite firstn_app, <- Hlen, Nat.sub_diag, firstn_all. cbn [firstn].
    now rewrite app_nil_r.
Qed.

End ReportFacts.

(** ** The parser and the dispatch, beyond the flag combinations *)

Section DispatchFacts.
Context `{Project}.

Ltac by_action a Ha :=
  destruct a; unfold take_action, parser_error in Ha;
  repeat match type of Ha with
         | context [if ?c then _ else _] => destruct c eqn:?
         | context [match py_int ?v with _ => _ end] => destruct (py_int v) eqn:?
         end;
  try discriminate Ha; inversion Ha; subst; clear Ha.





Lemma consume_positionals (argv : list arg) :
  forall ns positional ns' positional',
    consume ns positional argv = Done (ns', positional') ->
    positional' = positional ++ positionals argv.
Proof.
  induction argv as [| a argv IH]; intros ns positional ns' positional' Hc.
  - cbn in Hc. inversion Hc. now rewrite app_nil_r.
  - cbn [consume] in Hc.
    destruct (take_action ns a) as [ns1 | f]; cbn [obind] in Hc; [| discriminate].
    rewrite (IH _ _ _ _ Hc). destruct a; cbn [set_aside positionals flat_map app];
      try reflexivity.
    now rewrite <- app_assoc.
Qed.

(** X8: a command line is parsed only if it has exactly one positional
    string, and that string is the query. *)
Theorem parsed_query_is_the_positional (argv : list arg) (args : Namespace) :
  parse_args argv = Done args -> positionals argv = [query args].
Proof.
  intros Hp. apply parse_args_done in Hp as (ns & q & Hc & ->).
  apply consume_positionals in Hc. cbn in Hc. now rewrite <- Hc.
Qed.


(** **** More of what the parser leaves in the namespace *)

Lemma parsed_format (argv : list arg) (args : Namespace) :
  parse_args argv = Done args ->
  member (format args) [lit "ascii"; lit "markdown"] = true.
Proof.
  intros Hp. apply parse_args_done in Hp as (ns & q & Hc & ->). cbn [format set_query].
  eapply (consume_keeps
            (fun ns => member (format ns) [lit "ascii"; lit "markdown"] = true)
            (fun _ => True)); [ | | | exact Hc ]; [| apply all_args | reflexivity].
  intros ns0 a ns1 _ HP Hact. by_action a Hact; cbn [format set_domain set_stack
    set_max_results set_json set_design_system set_project_name set_format set_persist
    set_page set_output_dir]; auto.
  now apply negb_false_iff.
Qed.

Lemma parsed_domain_valid (argv : list arg) (args : Namespace) :
  parse_args argv = Done args ->
  domain args = None
  \/ exists v, domain args = Some v /\ member v CSV_CONFIG_keys = true.
Proof.
  intros Hp. apply parse_args_done in Hp as (ns & q & Hc & ->). cbn [domain set_query].
  eapply (consume_keeps
            (fun ns => domain ns = None
                       \/ exists v, domain ns = Some v /\ member v CSV_CONFIG_keys = true)
            (fun _ => True)); [ | | | exact Hc ]; [| apply all_args | now left].
  intros ns0 a ns1 _ HP Hact. by_action a Hact; cbn; auto.
  right. exists v. split; [reflexivity | now apply negb_false_iff].
Qed.

Lemma parsed_stack_valid (argv : list arg) (args : Namespace) :
  parse_args argv = Done args ->
  stack args = None
  \/ exists v, stack args = Some v /\ member v AVAILABLE_STACKS = true.
Proof.
  intros Hp. apply parse_args_done in Hp as (ns & q & Hc & ->). cbn [stack set_query].
  eapply (consume_keeps
            (fun ns => stack ns = None
                       \/ exists v, stack ns = Some v /\ member v AVAILABLE_STACKS = true)
            (fun _ => True)); [ | | | exact Hc ]; [| apply all_args | now left].
  intros ns0 a ns1 _ HP Hact. by_action a Hact; cbn; auto.
  right. exists v. split; [reflexivity | now apply negb_false_iff].
Qed.

Lemma parsed_exclusive (argv : list arg) (args : Namespace) :
  parse_args argv = Done args -> domain args = None \/ stack args = None.
Proof.
  intros Hp. apply parse_args_done in Hp as (ns & q & Hc & ->). cbn [domain stack set_query].
  eapply (consume_keeps (fun ns => domain ns = None \/ stack ns = None) (fun _ => True));
    [ | | | exact Hc ]; [| apply all_args | now left].
  intros ns0 a ns1 _ HP Hact. by_action a Hact; cbn; auto.
  - right. now destruct (stack ns0).
  - left. now destruct (domain ns0).
Qed.

Lemma parsed_limit (argv : list arg) (args : Namespace) (v : str) (n : Z) :
  parse_args argv = Done args ->
  In (Opt_max_results v) argv ->
  (forall w, In (Opt_max_results w) argv -> py_int w = Some n) ->
  max_results args = n.
Proof.
  intros Hp Hin Hall. apply parse_args_done in Hp as (ns & q & Hc & ->).
  cbn [max_results set_query].
  eapply (consume_reaches (fun ns => max_results ns = n)
            (fun a => forall w, a = Opt_max_results w -> py_int w = Some n)
            (Opt_max_results v)); [ | | | | exact Hc ]; auto.
  - intros ns0 ns1 Hact. cbn in Hact. rewrite (Hall v Hin) in Hact. now inversion Hact.
  - intros ns0 a ns1 Ha HP Hact. by_action a Hact; cbn; auto.
    rewrite (Ha v0 eq_refl) in *. congruence.
  - apply Forall_forall. intros a Ha w ->. auto.
Qed.


End DispatchFacts.

(** ** What a run calls and prints *)

Section RunShape.
Context `{Project}.


Lemma show_shape (as_json : bool) (r : result) :
  exists rest out,
    show as_json r = (rest, out)
    /\ forallb is_print rest = true
    /\ (forall e, out <> Abort (ParserError e))
    /\ (as_json = true -> forall k, out <> Abort (KeyError k)).
Proof.
  destruct (show_cases as_json r) as [[text Hs] | [f [Hs Hf]]].
  - exists [Print text], (Done tt). rewrite Hs.
    split; [reflexivity |]. split; [reflexivity |]. split; discriminate.
  - exists [], (Abort f). rewrite Hs.
    split; [reflexivity |]. split; [reflexivity |]. split.
    + intros e He. inversion He. now apply (Hf e).
    + intros -> k Hk. unfold show in Hs. destruct (json_dumps r); cbn in Hs.
      * discriminate Hs.
      * inversion Hs; subst. discriminate Hk.
Qed.

(** The three ways a run can go: refused by one of lines 98-105, the
    synthesis, or one search. *)
Lemma run_shape (args : Namespace) :
  (exists e, run args = ([], Abort (ParserError e)))
  \/ (design_system args = true /\ json args = false
      /\ (truthy (page args) = true -> persist args = true)
      /\ exists rest,
           run args =
             (Call_generate_design_system (query args) (project_name args) (format args)
                (persist args) (page args) (output_dir args) :: rest, Done tt)
           /\ forallb is_print rest = true)
  \/ (design_system args = false /\ persist args = false
      /\ truthy (page args) = false /\ truthy (output_dir args) = false
      /\ exists rest out,
           run args =
             ((if truthy (stack args)
               then Call_search_stack (query args)
                      (match stack args with Some s => s | None => [] end)
                      (max_results args)
               else Call_search (query args) (domain args) (max_results args))
                :: rest, out)
           /\ forallb is_print rest = true
           /\ (forall e, out <> Abort (ParserError e))
           /\ (json args = true -> forall k, out <> Abort (KeyError k))).
Proof.
  destruct (truthy (page args) && negb (persist args)) eqn:Hpage.
  { left. apply andb_true_iff in Hpage as [Hp Hq]. apply negb_true_iff in Hq.
    rewrite (run_page_without_persist _ Hp Hq). eauto. }
  destruct (design_system args) eqn:Hds.
  - destruct (json args) eqn:Hjson.
    + left. apply run_json_with_design_system; assumption.
    + right. left. split; [reflexivity |]. split; [reflexivity |]. split.
      * intros Hp. rewrite Hp in Hpage. now destruct (persist args).
      * rewrite (run_design_system _ Hds Hjson Hpage). destruct (persist args).
        -- cbn [when]. rewrite print_confirmation_events.
           destruct (page args) as [[| c p] |]; eexists; split; reflexivity.
        -- eexists. split; reflexivity.
  - destruct (persist args || truthy (page args) || truthy (output_dir args)) eqn:Hany.
    + left. now apply run_persistence_without_design_system.
    + right. right. apply orb_false_iff in Hany as [Hany Hout].
      apply orb_false_iff in Hany as [Hpersist Hpg].
      repeat (split; [assumption || reflexivity |]).
      rewrite (run_search _ Hds Hpersist Hpg Hout).
      destruct (truthy (stack args)).
      * destruct (show_shape (json args)
                    (search_stack (query args)
                       (match stack args with Some s => s | None => [] end)
                       (max_results args))) as (rest & out & Hs & Hprints & Hout' & Hj).
        exists rest, out. unfold bind, emit. rewrite Hs. cbn [app].
        repeat split; auto.
      * destruct (show_shape (json args)
                    (search (query args) (domain args) (max_results args)))
          as (rest & out & Hs & Hprints & Hout' & Hj).
        exists rest, out. unfold bind, emit. rewrite Hs. cbn [app].
        repeat split; auto.
Qed.

(** X10: every run either is stopped before anything is called (with a
    usage error and nothing printed, or with the help text of a command
    line that carries [-h]), or makes exactly one call into the project,
    before any output, and does not end in a usage error. *)
Theorem one_call_before_any_output (argv : list arg) :
  stopped argv
  \/ exists call rest,
       trace (main argv) = call :: rest
       /\ is_print call = false
       /\ call <> Print_help
       /\ forallb is_print rest = true
       /\ forall e, ending (main argv) <> Abort (ParserError e).
Proof.
  destruct (parse_args argv) as [args | f] eqn:Hp.
  - unfold stopped, rejected. rewrite (main_parsed _ _ Hp).
    destruct (run_shape args)
      as [[e He] | [(_ & _ & _ & rest & Hr & Hprints)
                   | (_ & _ & _ & _ & rest & out & Hr & Hprints & Hout & _)]].
    + left. left. now exists e.
    + right. rewrite Hr. eexists. exists rest.
      split; [reflexivity |]. split; [reflexivity |]. split; [discriminate |].
      split; [exact Hprints | discriminate].
    + right. rewrite Hr. eexists. exists rest.
      split; [reflexivity |]. split; [now destruct (truthy (stack args)) |].
      split; [now destruct (truthy (stack args)) |].
      split; [exact Hprints | exact Hout].
  - left. now apply (unparsed_stopped argv f).
Qed.



(** X13: the design system takes priority: with [--design-system] no search
    is ever called, whatever selector the command line carries.  A run that
    is not stopped by the parser or by lines 98-105 begins with the call of
    [generate_design_system] on the parsed arguments, and everything after
    it is output. *)
Theorem design_system_takes_priority (argv : list arg) :
  In Opt_design_system argv ->
  (forall e, In e (trace (main argv)) -> limit_of e = None)
  /\ (stopped argv
      \/ exists args rest,
           parse_args argv = Done args
           /\ trace (main argv) =
                Call_generate_design_system (query args) (project_name args) (format args)
                  (persist args) (page args) (output_dir args) :: rest
           /\ forallb is_print rest = true).
Proof.
  intros Hin. destruct (parse_args argv) as [args | f] eqn:Hp.
  - pose proof (parsed_flag_design_system _ _ Hp Hin) as Hds.
    unfold stopped, rejected. rewrite (main_parsed _ _ Hp).
    destruct (run_shape args)
      as [[e He] | [(_ & _ & _ & rest & Hr & Hprints) | (Hno & _)]].
    + rewrite He. split; [intros e0 [] | left; left; now exists e].
    + rewrite Hr. cbn [trace fst]. split.
      * intros e [<- | He]; [reflexivity |].
        rewrite forallb_forall in Hprints. specialize (Hprints e He). now destruct e.
      * right. exists args, rest. auto.
    + congruence.
  - split.
    + intros e He. now rewrite (main_unparsed_trace _ _ _ Hp He).
    + left. now apply (unparsed_stopped argv f).
Qed.

(** X14: a parsed command line with [--stack], no [--design-system], no
    [--persist] and no non-empty [--page] or [--output-dir] calls
    [search_stack] with the query, a stack of [AVAILABLE_STACKS] and the
    limit, provided the empty string is not a stack; [search] is not called. *)
Theorem stack_search (argv : list arg) (args : Namespace) (v : str) :
  parse_args argv = Done args ->
  In (Opt_stack v) argv ->
  member [] AVAILABLE_STACKS = false ->
  ~ In Opt_design_system argv ->
  ~ In Opt_persist argv ->
  (forall w, In (Opt_page w) argv -> w = []) ->
  (forall w, In (Opt_output_dir w) argv -> w = []) ->
  exists s,
    stack args = Some s
    /\ member s AVAILABLE_STACKS = true
    /\ domain args = None
    /\ main argv =
         bind (emit (Call_search_stack (query args) s (max_results args)))
           (fun _ => show (json args) (search_stack (query args) s (max_results args))).
Proof.
  intros Hp Hin Hempty Hds Hpersist Hpage Hout.
  assert (exists s, stack args = Some s /\ member s AVAILABLE_STACKS = true)
    as (s & Hs & Hmem).
  { pose proof Hp as Hp'. apply parse_args_done in Hp' as (ns & q & Hc & ->).
    cbn [stack set_query].
    eapply (consume_reaches
              (fun ns => exists s, stack ns = Some s /\ member s AVAILABLE_STACKS = true)
              (fun _ => True) (Opt_stack v)); [ | | | | exact Hc ]; auto using all_args.
    - intros ns0 ns1 Hact. cbn in Hact.
      destruct (negb (member v AVAILABLE_STACKS)) eqn:Hv; [discriminate |].
      destruct (is_some (domain ns0)); [discriminate |].
      inversion Hact. exists v. split; [reflexivity | now apply negb_false_iff].
    - intros ns0 a ns1 _ HP Hact.
      destruct a; unfold take_action, parser_error in Hact;
        repeat match type of Hact with
               | context [if ?c then _ else _] => destruct c eqn:?
               | context [match py_int ?x with _ => _ end] => destruct (py_int x)
               end; try discriminate Hact; inversion Hact; subst; cbn; auto.
      exists v0. split; [reflexivity | now apply negb_false_iff]. }
  exists s. split; [exact Hs |]. split; [exact Hmem |]. split.
  - destruct (parsed_exclusive _ _ Hp) as [Hd | Hn]; [exact Hd | congruence].
  - rewrite (main_parsed _ _ Hp).
    rewrite (run_search args (parsed_design_system _ _ Hp Hds) (parsed_persist _ _ Hp Hpersist)
               (parsed_page_falsy _ _ Hp Hpage) (parsed_output_dir_falsy _ _ Hp Hout)).
    rewrite Hs. destruct s as [| c s']; [congruence | reflexivity].
Qed.

(** X15: a parsed design-system command line without [--persist], without
    [--json] and without a non-empty [--page] calls the synthesis with
    [persist=False] and prints its text, and nothing else: no confirmation
    is printed. *)
Theorem design_system_without_persist (argv : list arg) (args : Namespace) :
  parse_args argv = Done args ->
  In Opt_design_system argv ->
  ~ In Opt_persist argv ->
  ~ In Opt_json argv ->
  (forall w, In (Opt_page w) argv -> w = []) ->
  main argv =
    ( [ Call_generate_design_system (query args) (project_name args) (format args)
          false (page args) (output_dir args);
        Print (py_str (generate_design_system (query args) (project_name args)
                         (format args) false (page args) (output_dir args))) ],
      Done tt ).
Proof.
  intros Hp Hds Hpersist Hjson Hpage.
  rewrite (main_parsed _ _ Hp), (run_design_system args).
  - now rewrite (parsed_persist _ _ Hp Hpersist).
  - exact (parsed_flag_design_system _ _ Hp Hds).
  - exact (parsed_json _ _ Hp Hjson).
  - now rewrite (parsed_page_falsy _ _ Hp Hpage).
Qed.


(** X17: without [--json], a domain search whose envelope carries an
    ["error"] key prints the line "Error: " and the text of the error, and
    the run completes. *)
Theorem search_error_is_printed (argv : list arg) (args : Namespace) :
  parse_args argv = Done args ->
  ~ In Opt_json argv ->
  (forall w, ~ In (Opt_stack w) argv) ->
  ~ In Opt_design_system argv ->
  ~ In Opt_persist argv ->
  (forall w, In (Opt_page w) argv -> w = []) ->
  (forall w, In (Opt_output_dir w) argv -> w = []) ->
  dict_has (search (query args) (domain args) (max_results args)) (lit "error") = true ->
  exists e,
    dict_get (search (query args) (domain args) (max_results args)) (lit "error") = Some e
    /\ main argv =
         ( [ Call_search (query args) (domain args) (max_results args);
             Print (lit "Error: " ++ py_str e) ],
           Done tt ).
Proof.
  intros Hp Hjson Hstack Hds Hpersist Hpage Hout Herr.
  unfold dict_has in Herr.
  destruct (dict_get (search (query args) (domain args) (max_results args)) (lit "error"))
    as [e |] eqn:He; [| discriminate Herr].
  exists e. split; [reflexivity |].
  rewrite (main_parsed _ _ Hp).
  rewrite (run_search args (parsed_design_system _ _ Hp Hds) (parsed_persist _ _ Hp Hpersist)
             (parsed_page_falsy _ _ Hp Hpage) (parsed_output_dir_falsy _ _ Hp Hout)).
  rewrite (parsed_stack_none _ _ Hp Hstack), (parsed_json _ _ Hp Hjson).
  cbn [truthy]. unfold show, format_output, dict_has, dict_item. rewrite He. reflexivity.
Qed.

(** X18: when every [--max-results] value of the command line converts to
    the integer [n], and there is one, every search that is run is handed
    [n]. *)
Theorem explicit_limit (argv : list arg) (v : str) (n : Z) (e : event) (m : Z) :
  In (Opt_max_results v) argv ->
  (forall w, In (Opt_max_results w) argv -> py_int w = Some n) ->
  In e (trace (main argv)) -> limit_of e = Some m -> m = n.
Proof.
  intros Hin Hall He Hl. destruct (parse_args argv) as [args | f] eqn:Hp.
  - rewrite (main_parsed _ _ Hp) in He.
    rewrite (run_limits _ _ _ He Hl). exact (parsed_limit _ _ _ _ Hp Hin Hall).
  - rewrite (main_unparsed_trace _ _ _ Hp He) in Hl. discriminate Hl.
Qed.

(** X19: a search is only ever called with a selector of its own table:
    [search] with [None] or a key of [CSV_CONFIG], [search_stack] with an
    element of [AVAILABLE_STACKS]. *)
Theorem search_selectors_valid (argv : list arg) (e : event) :
  In e (trace (main argv)) ->
  match e with
  | Call_search _ d _ =>
      d = None \/ exists v, d = Some v /\ member v CSV_CONFIG_keys = true
  | Call_search_stack _ s _ => member s AVAILABLE_STACKS = true
  | _ => True
  end.
Proof.
  intros He. destruct (parse_args argv) as [args | f] eqn:Hp.
  - rewrite (main_parsed _ _ Hp) in He.
    destruct (run_shape args)
      as [[e0 Hr] | [(_ & _ & _ & rest & Hr & Hprints)
                    | (_ & _ & _ & _ & rest & out & Hr & Hprints & _)]];
      rewrite Hr in He; cbn [trace fst] in He.
    + destruct He.
    + destruct He as [<- | He]; [exact I |].
      rewrite forallb_forall in Hprints. specialize (Hprints e He). now destruct e.
    + destruct He as [<- | He].
      * destruct (truthy (stack args)) eqn:Ht.
        -- destruct (parsed_stack_valid _ _ Hp) as [Hn | (s & Hs & Hmem)];
             [rewrite Hn in Ht; discriminate | now rewrite Hs].
        -- exact (parsed_domain_valid _ _ Hp).
      * rewrite forallb_forall in Hprints. specialize (Hprints e He). now destruct e.
  - now rewrite (main_unparsed_trace _ _ _ Hp He).
Qed.

(** X20: [generate_design_system] is only ever called with the format
    "ascii" or "markdown", and with a non-empty page name only together with
    [persist=True]. *)
Theorem design_system_call_valid (argv : list arg) (q : str) (name : option str)
        (fmt : str) (persisting : bool) (pg out : option str) :
  In (Call_generate_design_system q name fmt persisting pg out) (trace (main argv)) ->
  member fmt [lit "ascii"; lit "markdown"] = true
  /\ (truthy pg = true -> persisting = true).
Proof.
  intros He. destruct (parse_args argv) as [args | f] eqn:Hp.
  - rewrite (main_parsed _ _ Hp) in He.
    destruct (run_shape args)
      as [[e0 Hr] | [(_ & _ & Hpage & rest & Hr & Hprints)
                    | (_ & _ & _ & _ & rest & out' & Hr & Hprints & _)]];
      rewrite Hr in He; cbn [trace fst] in He.
    + destruct He.
    + destruct He as [Heq | He].
      * inversion Heq; subst. split; [exact (parsed_format _ _ Hp) | exact Hpage].
      * rewrite forallb_forall in Hprints. specialize (Hprints _ He). discriminate.
    + destruct He as [Heq | He].
      * destruct (truthy (stack args)); discriminate.
      * rewrite forallb_forall in Hprints. specialize (Hprints _ He). discriminate.
  - pose proof (main_unparsed_trace _ _ _ Hp He) as Hhelp. discriminate Hhelp.
Qed.

End RunShape.

(** ** The standard streams *)

Section StreamFacts.
Context `{Streams}.

Lemma wrapper_is_utf8 (b : byte_buffer) :
  io_laws -> utf8_or_unset (stream_encoding (TextIOWrapper b (lit "utf-8"))) = true.
Proof.
  intros (Hlower & Hwrap & _). rewrite Hwrap.
  change (str_eqb (str_lower (lit "utf-8")) (lit "utf-8") = true).
  rewrite Hlower. reflexivity.
Qed.

(** Line 27-28: a stream that needs nothing is returned as it is. *)
Lemma ensure_utf8_stream_kept (s : stream) :
  utf8_or_unset (stream_encoding s) = true -> _ensure_utf8_stream s = s.
Proof. intros Henc. unfold _ensure_utf8_stream. now rewrite Henc. Qed.

(** X21: the stream [_ensure_utf8_stream] returns writes UTF-8 (or has no
    encoding to speak of), unless the stream has neither a working
    [reconfigure] nor a buffer, in which case it is returned as it is. *)
Theorem ensure_utf8_stream_result (s : stream) :
  io_laws ->
  utf8_or_unset (stream_encoding (_ensure_utf8_stream s)) = true
  \/ (_ensure_utf8_stream s = s
      /\ stream_buffer s = None
      /\ (stream_reconfigure s = None \/ stream_reconfigure s = Some None)).
Proof.
  intros Hio. unfold _ensure_utf8_stream.
  destruct (utf8_or_unset (stream_encoding s)) eqn:Henc; [now left |].
  destruct (stream_reconfigure s) as [[s' |] |] eqn:Hre.
  - left. destruct Hio as (_ & _ & Hafter). exact (Hafter _ _ Hre).
  - destruct (stream_buffer s) as [b |]; [left; now apply wrapper_is_utf8 | right; auto].
  - destruct (stream_buffer s) as [b |]; [left; now apply wrapper_is_utf8 | right; auto].
Qed.

(** X22: applying [_ensure_utf8_stream] to its own result changes nothing:
    a stream is reconfigured or wrapped at most once. *)
Theorem ensure_utf8_stream_idempotent (s : stream) :
  io_laws ->
  _ensure_utf8_stream (_ensure_utf8_stream s) = _ensure_utf8_stream s.
Proof.
  intros Hio.
  destruct (utf8_or_unset (stream_encoding s)) eqn:Henc.
  { now rewrite !(ensure_utf8_stream_kept s Henc). }
  assert (forall t, _ensure_utf8_stream s = t ->
                    utf8_or_unset (stream_encoding t) = true ->
                    _ensure_utf8_stream (_ensure_utf8_stream s) = _ensure_utf8_stream s)
    as Hdone.
  { intros t -> Ht. now apply ensure_utf8_stream_kept. }
  destruct (stream_reconfigure s) as [[s' |] |] eqn:Hre.
  - apply (Hdone s').
    + unfold _ensure_utf8_stream. now rewrite Henc, Hre.
    + destruct Hio as (_ & _ & Hafter). exact (Hafter _ _ Hre).
  - destruct (stream_buffer s) as [b |] eqn:Hb.
    + apply (Hdone (TextIOWrapper b (lit "utf-8")));
        [unfold _ensure_utf8_stream; now rewrite Henc, Hre, Hb | now apply wrapper_is_utf8].
    + assert (_ensure_utf8_stream s = s) as Hsame
          by (unfold _ensure_utf8_stream; now rewrite Henc, Hre, Hb).
      now rewrite !Hsame.
  - destruct (stream_buffer s) as [b |] eqn:Hb.
    + apply (Hdone (TextIOWrapper b (lit "utf-8")));
        [unfold _ensure_utf8_stream; now rewrite Henc, Hre, Hb | now apply wrapper_is_utf8].
    + assert (_ensure_utf8_stream s = s) as Hsame
          by (unfold _ensure_utf8_stream; now rewrite Henc, Hre, Hb).
      now rewrite !Hsame.
Qed.

End StreamFacts.

(** * The further properties on concrete inputs *)

Ltac absent := let Hw := fresh in intros Hw; cbn in Hw; intuition discriminate.

(** The envelope of a domain search over two rows. *)
Lemma format_output_well_formed_witness :
  dict_has (sample_envelope (lit "domain") (lit "style") (lit "glass")) (lit "error") = false
  /\ dict_get (sample_envelope (lit "domain") (lit "style") (lit "glass")) (lit "results")
     = Some (Table sample_rows)
  /\ exists head,
       List.length head = 3%nat
       /\ format_output (sample_envelope (lit "domain") (lit "style") (lit "glass"))
          = Done (join newline
                    (head ++ rows_lines 1
                       (map (map (fun kv => (fst kv, Text (snd kv)))) sample_rows))).
Proof.
  split; [reflexivity |]. split; [reflexivity |].
  apply (format_output_well_formed (H := sample_python)
           (sample_envelope (lit "domain") (lit "style") (lit "glass"))
           (Table sample_rows));
    try reflexivity.
  left. reflexivity.
Defined.

(** An envelope that lacks its query. *)
Lemma format_output_failure_witness :
  format_output (H := sample_python) [ (lit "domain", Text (lit "style")) ]
  = Abort (KeyError (lit "query"))
  /\ ((exists k,
         KeyError (lit "query") = KeyError k
         /\ dict_get (V := sample_obj) [ (lit "domain", Text (lit "style")) ] k = None
         /\ In k [lit "domain"; lit "query"; lit "file"; lit "count"; lit "results"])
      \/ (KeyError (lit "query") = TypeError
          /\ exists o,
               dict_get (V := sample_obj) [ (lit "domain", Text (lit "style")) ]
                 (lit "results") = Some o
               /\ py_rows o = None)).
Proof.
  split; [vm_compute; reflexivity |].
  apply (format_output_failure (H := sample_python) [ (lit "domain", Text (lit "style")) ]).
  vm_compute. reflexivity.
Defined.


(** The second row of the envelope is the block "### Result 2". *)
Lemma format_output_numbers_rows_witness :
  exists lines rw,
    format_output_lines (sample_envelope (lit "domain") (lit "style") (lit "glass"))
    = Done lines
    /\ py_rows (Table sample_rows)
       = Some (map (map (fun kv => (fst kv, Text (snd kv)))) sample_rows)
    /\ nth_error (map (map (fun kv => (fst kv, Text (snd kv)))) sample_rows) 1 = Some rw
    /\ str_of_Z (Z.of_nat 1 + 1) = lit "2"
    /\ exists before_it after_it,
         lines = before_it
                   ++ ((lit "### Result " ++ str_of_Z (Z.of_nat 1 + 1))
                         :: map (fun kv => field_line (fst kv) (snd kv)) rw ++ [ [] ])
                   ++ after_it
         /\ List.length before_it
            = (3 + list_sum
                     (map (fun x => 2 + List.length x)
                        (firstn 1 (map (map (fun kv => (fst kv, Text (snd kv))))
                                     sample_rows))))%nat.
Proof.
  eexists. eexists. split; [vm_compute; reflexivity |]. split; [reflexivity |].
  split; [reflexivity |]. split; [vm_compute; reflexivity |].
  apply (format_output_numbers_rows (H := sample_python)
           (sample_envelope (lit "domain") (lit "style") (lit "glass")) _
           (Table sample_rows));
    [vm_compute; reflexivity | reflexivity | reflexivity | reflexivity].
Defined.



(** [--json dash --stack react]: the query is "dash". *)
Lemma parsed_query_is_the_positional_witness :
  exists args,
    parse_args [Opt_json; Positional (lit "dash"); Opt_stack (lit "react")] = Done args
    /\ query args = lit "dash"
    /\ positionals [Opt_json; Positional (lit "dash"); Opt_stack (lit "react")]
       = [query args].
Proof.
  eexists. split; [vm_compute; reflexivity |]. split; [vm_compute; reflexivity |].
  apply (parsed_query_is_the_positional
           [Opt_json; Positional (lit "dash"); Opt_stack (lit "react")]).
  vm_compute. reflexivity.
Defined.




(** [dash --design-system --domain ux]: the synthesis runs, no search. *)
Lemma design_system_takes_priority_witness :
  In Opt_design_system [Positional (lit "dash"); Opt_design_system; Opt_domain (lit "ux")]
  /\ trace (main [Positional (lit "dash"); Opt_design_system; Opt_domain (lit "ux")])
     = [ Call_generate_design_system (lit "dash") None (lit "ascii") false None None;
         Print (lit "DESIGN SYSTEM: dash") ]
  /\ (forall e,
        In e (trace (main [Positional (lit "dash"); Opt_design_system;
                           Opt_domain (lit "ux")])) ->
        limit_of e = None).
Proof.
  split; [cbn; tauto |]. split; [vm_compute; reflexivity |].
  apply (design_system_takes_priority
           [Positional (lit "dash"); Opt_design_system; Opt_domain (lit "ux")]).
  cbn. tauto.
Defined.

(** [dash --stack react] searches the stack "react". *)
Lemma stack_search_witness :
  exists args,
    parse_args [Positional (lit "dash"); Opt_stack (lit "react")] = Done args
    /\ In (Opt_stack (lit "react")) [Positional (lit "dash"); Opt_stack (lit "react")]
    /\ member [] AVAILABLE_STACKS = false
    /\ exists s,
         stack args = Some s
         /\ member s AVAILABLE_STACKS = true
         /\ domain args = None
         /\ main [Positional (lit "dash"); Opt_stack (lit "react")]
            = bind (emit (Call_search_stack (query args) s (max_results args)))
                (fun _ => show (json args)
                            (search_stack (query args) s (max_results args))).
Proof.
  eexists. split; [vm_compute; reflexivity |]. split; [cbn; tauto |].
  split; [vm_compute; reflexivity |].
  apply (stack_search [Positional (lit "dash"); Opt_stack (lit "react")] _ (lit "react"));
    [vm_compute; reflexivity | cbn; tauto | vm_compute; reflexivity | absent | absent | | ];
    intros w Hw; exfalso; cbn in Hw; intuition discriminate.
Defined.

(** [dash --design-system]: the synthesis and its text, nothing more. *)
Lemma design_system_without_persist_witness :
  exists args,
    parse_args [Positional (lit "dash"); Opt_design_system] = Done args
    /\ In Opt_design_system [Positional (lit "dash"); Opt_design_system]
    /\ ~ In Opt_persist [Positional (lit "dash"); Opt_design_system]
    /\ ~ In Opt_json [Positional (lit "dash"); Opt_design_system]
    /\ main [Positional (lit "dash"); Opt_design_system]
       = ( [ Call_generate_design_system (query args) (project_name args) (format args)
               false (page args) (output_dir args);
             Print (py_str (generate_design_system (query args) (project_name args)
                              (format args) false (page args) (output_dir args))) ],
           Done tt ).
Proof.
  eexists. split; [vm_compute; reflexivity |]. split; [cbn; tauto |].
  split; [absent |]. split; [absent |].
  apply (design_system_without_persist [Positional (lit "dash"); Opt_design_system]);
    [vm_compute; reflexivity | cbn; tauto | absent | absent | ].
  intros w Hw. exfalso. cbn in Hw. intuition discriminate.
Defined.


(** [dash] with a project whose search fails: "Error: File not found". *)
Lemma search_error_is_printed_witness :
  exists args,
    parse_args (H0 := failing_project) [Positional (lit "dash")] = Done args
    /\ dict_has (search (Project := failing_project) (query args) (domain args)
                   (max_results args)) (lit "error") = true
    /\ exists e,
         dict_get (search (Project := failing_project) (query args) (domain args)
                     (max_results args)) (lit "error") = Some e
         /\ py_str e = lit "File not found"
         /\ main (H0 := failing_project) [Positional (lit "dash")]
            = ( [ Call_search (query args) (domain args) (max_results args);
                  Print (lit "Error: " ++ py_str e) ],
                Done tt ).
Proof.
  eexists. split; [vm_compute; reflexivity |]. split; [reflexivity |].
  destruct (search_error_is_printed (H0 := failing_project) [Positional (lit "dash")]
              {| query := lit "dash"; domain := None; stack := None;
                 max_results := MAX_RESULTS; json := false; design_system := false;
                 project_name := None; format := lit "ascii"; persist := false;
                 page := None; output_dir := None |})
    as (e & He & Hmain);
    [vm_compute; reflexivity | absent | intros w; absent | absent | absent
     | intros w Hw; exfalso; cbn in Hw; intuition discriminate
     | intros w Hw; exfalso; cbn in Hw; intuition discriminate
     | reflexivity | ].
  exists e. split; [exact He |]. split; [| exact Hmain].
  cbn in He. inversion He. reflexivity.
Defined.

(** [dash --max-results 5] searches with the limit 5. *)
Lemma explicit_limit_witness :
  In (Opt_max_results (lit "5")) [Positional (lit "dash"); Opt_max_results (lit "5")]
  /\ (forall w, In (Opt_max_results w) [Positional (lit "dash"); Opt_max_results (lit "5")]
                -> py_int w = Some 5%Z)
  /\ In (Call_search (lit "dash") None 5)
        (trace (main [Positional (lit "dash"); Opt_max_results (lit "5")]))
  /\ limit_of (Call_search (lit "dash") None 5) = Some 5%Z
  /\ 5%Z = 5%Z.
Proof.
  assert (forall w, In (Opt_max_results w)
                      [Positional (lit "dash"); Opt_max_results (lit "5")]
                    -> py_int w = Some 5%Z) as Hall.
  { intros w [Hw | [Hw | []]]; [discriminate Hw |]. inversion Hw. vm_compute. reflexivity. }
  assert (In (Call_search (lit "dash") None 5)
             (trace (main [Positional (lit "dash"); Opt_max_results (lit "5")]))) as Hin.
  { vm_compute. left. reflexivity. }
  split; [cbn; tauto |]. split; [exact Hall |]. split; [exact Hin |].
  split; [reflexivity |].
  apply (explicit_limit [Positional (lit "dash"); Opt_max_results (lit "5")] (lit "5") 5
           (Call_search (lit "dash") None 5) 5);
    [cbn; tauto | exact Hall | exact Hin | reflexivity].
Defined.

(** [dash --domain ux] searches the domain "ux", a key of the table. *)
Lemma search_selectors_valid_witness :
  In (Call_search (lit "dash") (Some (lit "ux")) 3)
     (trace (main [Positional (lit "dash"); Opt_domain (lit "ux")]))
  /\ (Some (lit "ux") = None
      \/ exists v, Some (lit "ux") = Some v /\ member v CSV_CONFIG_keys = true).
Proof.
  assert (In (Call_search (lit "dash") (Some (lit "ux")) 3)
             (trace (main [Positional (lit "dash"); Opt_domain (lit "ux")]))) as Hin.
  { vm_compute. left. reflexivity. }
  split; [exact Hin |].
  exact (search_selectors_valid [Positional (lit "dash"); Opt_domain (lit "ux")]
           (Call_search (lit "dash") (Some (lit "ux")) 3) Hin).
Defined.

(** [dash --design-system --persist --page home --format markdown]. *)
Lemma design_system_call_valid_witness :
  In (Call_generate_design_system (lit "dash") None (lit "markdown") true
        (Some (lit "home")) None)
     (trace (main [Positional (lit "dash"); Opt_design_system; Opt_persist;
                   Opt_page (lit "home"); Opt_format (lit "markdown")]))
  /\ member (lit "markdown") [lit "ascii"; lit "markdown"] = true
  /\ (truthy (Some (lit "home")) = true -> true = true).
Proof.
  assert (In (Call_generate_design_system (lit "dash") None (lit "markdown") true
                (Some (lit "home")) None)
             (trace (main [Positional (lit "dash"); Opt_design_system; Opt_persist;
                           Opt_page (lit "home"); Opt_format (lit "markdown")]))) as Hin.
  { vm_compute. left. reflexivity. }
  split; [exact Hin |].
  exact (design_system_call_valid
           [Positional (lit "dash"); Opt_design_system; Opt_persist;
            Opt_page (lit "home"); Opt_format (lit "markdown")]
           (lit "dash") None (lit "markdown") true (Some (lit "home")) None Hin).
Defined.

Lemma sample_io_laws : io_laws (H := sample_streams).
Proof.
  split; [vm_compute; reflexivity |]. split; [reflexivity |].
  intros s s' Hre. cbn in Hre.
  destruct (its_reconfigure s) as [[|] |]; inversion Hre. vm_compute. reflexivity.
Qed.

(** A console in cp1252 whose [reconfigure] fails is wrapped over its
    buffer, and the wrapper writes UTF-8. *)
Lemma ensure_utf8_stream_result_witness :
  io_laws (H := sample_streams)
  /\ _ensure_utf8_stream legacy_console
     = {| its_encoding := Some (lit "utf-8"); its_reconfigure := Some true;
          its_buffer := Some 1%nat |}
  /\ (utf8_or_unset (stream_encoding (_ensure_utf8_stream legacy_console)) = true
      \/ (_ensure_utf8_stream legacy_console = legacy_console
          /\ stream_buffer legacy_console = None
          /\ (stream_reconfigure legacy_console = None
              \/ stream_reconfigure legacy_console = Some None))).
Proof.
  split; [exact sample_io_laws |]. split; [vm_compute; reflexivity |].
  apply (ensure_utf8_stream_result (H := sample_streams) legacy_console).
  exact sample_io_laws.
Defined.

Lemma ensure_utf8_stream_idempotent_witness :
  io_laws (H := sample_streams)
  /\ _ensure_utf8_stream legacy_console <> legacy_console
  /\ _ensure_utf8_stream (_ensure_utf8_stream legacy_console)
     = _ensure_utf8_stream legacy_console.
Proof.
  split; [exact sample_io_laws |]. split; [vm_compute; discriminate |].
  apply (ensure_utf8_stream_idempotent (H := sample_streams) legacy_console).
  exact sample_io_laws.
Defined.
